(** * check50: the process harness, the check pipeline and the valgrind report

    A shallow embedding of [check50.py]: the [Child] wrapper around a pexpect
    process (stdin, stdout, reject, exit, wait, match, help and the failed
    latch), the [check] decorator that gates a check on its dependency and
    turns the outcome of the body into PASS / FAIL / SKIP, the valgrind report
    aggregation of [Checks._check_valgrind], and [Mismatch.raw].

    Conventions.
    - Python strings are [string]; the calls the source makes on them
      ([replace], [lstrip], [join], [startswith], slices, [os.path.dirname],
      [os.path.join]) are written out in [Module Str].
    - What the interpreter and the libraries supply ([re.match], [repr], the
      text [format] gives for an object) is gathered in the class [Python];
      every definition that needs one of them takes an instance.
    - A pexpect process is the record [pexpect.spawn]: the answers it gives to
      the calls the source makes on it, and whether it has been closed, after
      which those calls raise.  Wall-clock time is counted in ticks, one
      tick per turn of the polling loop of [Child.wait].
    - A Child and the Childs that [on] makes from it share one payload; they
      are the members of a [Conditional.family].
    - A method that can raise returns an [outcome]: the value returned or the
      exception raised, each with the state of the object after the call. *)

From Stdlib Require Import ZArith String Ascii List Bool Lia.
From stdpp Require Import gmap strings list pretty.
Import ListNotations.
Local Open Scope string_scope.
Local Open Scope list_scope.

(* ===================================================================== *)
(** ** Python strings and paths *)
(* ===================================================================== *)

Module Str.

Definition LF : ascii := "010"%char.
Definition CR : ascii := "013"%char.
Definition TAB : ascii := "009"%char.
Definition SLASH : ascii := "/"%char.
Definition BACKSLASH : ascii := "\"%char.
Definition QUOTE : ascii := ascii_of_nat 34.
Definition APOSTROPHE : ascii := "'"%char.

(** The one-character strings the source writes as escapes. *)
Definition newline : string := String LF EmptyString.
Definition crlf : string := String CR newline.
Definition tab : string := String TAB EmptyString.
Definition quote : string := String QUOTE EmptyString.

(** [c in chars] *)
Fixpoint mem (c : ascii) (chars : string) : bool :=
  match chars with
  | EmptyString => false
  | String d rest => Ascii.eqb c d || mem c rest
  end.

(** [s.startswith(p)] *)
Definition startswith (s p : string) : bool := String.prefix p s.

(** [s.replace(old, new)] for a non-empty [old]: the occurrences of [old]
    are replaced from left to right, without overlap.  [skip] counts the
    characters of an occurrence that are still to be dropped. *)
Fixpoint replace_from (old new : string) (skip : nat) (s : string) : string :=
  match s with
  | EmptyString => EmptyString
  | String c rest =>
      match skip with
      | S k => replace_from old new k rest
      | O =>
          if String.prefix old s
          then new +:+ replace_from old new (String.length old - 1) rest
          else String c (replace_from old new O rest)
      end
  end.

Definition replace (old new s : string) : string := replace_from old new 0 s.

(** [s.lstrip(chars)] *)
Fixpoint lstrip (chars s : string) : string :=
  match s with
  | EmptyString => EmptyString
  | String c rest => if mem c chars then lstrip chars rest else s
  end.

(** [s.rstrip(chars)] *)
Fixpoint rstrip (chars s : string) : string :=
  match s with
  | EmptyString => EmptyString
  | String c rest =>
      match rstrip chars rest with
      | EmptyString => if mem c chars then EmptyString else String c EmptyString
      | r => String c r
      end
  end.

(** [sep.join(l)] *)
Definition join (sep : string) (l : list string) : string := String.concat sep l.

(** An index of a slice, brought into [0 .. len] the way Python does:
    a negative index counts from the end. *)
Definition clamp (len i : Z) : Z :=
  if (i <? 0)%Z then Z.max 0 (i + len) else Z.min i len.

(** [s[start:stop]] *)
Definition slice (start stop : Z) (s : string) : string :=
  let n := Z.of_nat (String.length s) in
  let a := clamp n start in
  let b := clamp n stop in
  String.substring (Z.to_nat a) (Z.to_nat (b - a)) s.

(** [p[:p.rfind('/') + 1]]: [p] up to its last slash, the slash included. *)
Fixpoint upto_last_slash (p : string) : string :=
  match p with
  | EmptyString => EmptyString
  | String c rest =>
      match upto_last_slash rest with
      | EmptyString => if Ascii.eqb c SLASH then String c EmptyString else EmptyString
      | h => String c h
      end
  end.

Fixpoint all_slashes (s : string) : bool :=
  match s with
  | EmptyString => true
  | String c rest => Ascii.eqb c SLASH && all_slashes rest
  end.

(** [os.path.dirname(p)] (posixpath):
    [head = p[:i]; if head and head != '/'*len(head): head = head.rstrip('/')]. *)
Definition dirname (p : string) : string :=
  let head := upto_last_slash p in
  if all_slashes head then head else rstrip "/" head.

(** [s.endswith('/')] *)
Fixpoint ends_with_slash (s : string) : bool :=
  match s with
  | EmptyString => false
  | String c EmptyString => Ascii.eqb c SLASH
  | String _ rest => ends_with_slash rest
  end.

(** [os.path.join(a, b)] (posixpath, two components). *)
Definition path_join (a b : string) : string :=
  if startswith b "/" then b
  else if String.eqb a EmptyString || ends_with_slash a then a +:+ b
  else a +:+ "/" +:+ b.

(** Truth value of a str: the empty string is false. *)
Definition truthy (s : string) : bool := negb (String.eqb s EmptyString).

End Str.

(* ===================================================================== *)
(** ** Values, results and exceptions *)
(* ===================================================================== *)

(** [Checks.PASS = True], [Checks.FAIL = False], [Checks.SKIP = None]. *)
Inductive verdict := PASS | FAIL | SKIP.

Definition verdict_eqb (a b : verdict) : bool :=
  match a, b with
  | PASS, PASS | FAIL, FAIL | SKIP, SKIP => true
  | _, _ => false
  end.

(** A [File] of the check directory; [contents] is what [read()] returns. *)
Record File := { filename : string; contents : string }.

(** The values that reach [stdout], [match] and [Mismatch]: the pexpect
    class [EOF], a str (read as a regular expression by [match]), a list of
    str, or a [File] (read literally by [match]). *)
Inductive pyval :=
| v_EOF
| v_str (s : string)
| v_list (l : list string)
| v_File (f : File).

(** What the interpreter supplies.
    - [re_match pattern s]: [bool(re.match(pattern, s))], or [None] for a
      pattern that does not compile, on which [re.match] raises [re.error];
    - [str_object v]: the text [format] gives for a value that is not a str;
    - [repr v]: [repr(v)]. *)
Class Python := {
  re_match : string -> string -> option bool;
  str_object : pyval -> string;
  repr : pyval -> string
}.

(** ["{}".format(v)] *)
Definition format `{Python} (v : pyval) : string :=
  match v with
  | v_str s => s
  | _ => str_object v
  end.

(** Truth value of an optional argument ([if output:]). *)
Definition truthy (v : option pyval) : bool :=
  match v with
  | None => false
  | Some (v_str s) => Str.truthy s
  | Some (v_list l) => match l with [] => false | _ => true end
  | Some v_EOF | Some (v_File _) => true
  end.

Module Mismatch.

(** Class which represents that expected output did not match actual output. *)
Record t := mk { expected : pyval; actual : pyval }.

(** [Mismatch.raw]: raw representation of [s], truncated if too long. *)
Definition raw `{Python} (s : pyval) : string :=
  let s := match s with
           | v_list l => v_str (Str.join Str.newline l)
           | _ => s
           end in
  match s with
  | v_EOF => "EOF"
  | _ =>
      let s := repr s in
      let s := Str.slice 1 (-1) s in
      let s := if Nat.ltb 15 (String.length s) then Str.slice 0 15 s +:+ "..." else s in
      Str.quote +:+ s +:+ Str.quote
  end.

(** [Mismatch.__str__] *)
Definition str `{Python} (m : t) : string :=
  "expected " +:+ raw (expected m) +:+ ", not " +:+ raw (actual m).

End Mismatch.

(** What [Child.fail] records and a check reports as its rationale: a str or
    a [Mismatch]. *)
Inductive message :=
| msg_str (s : string)
| msg_mismatch (m : Mismatch.t).

(** Truth value of a message: only the empty str is false. *)
Definition message_truthy (m : message) : bool :=
  match m with
  | msg_str s => Str.truthy s
  | msg_mismatch _ => true
  end.

(** The exceptions of the modelled code.  [Error] is check50's own class
    ([rationale], [helpers], [result]); [context] is [Some t] when
    [__context__] is [TIMEOUT(t)]. *)
Inductive exn :=
| Error (rationale : option message) (helpers : option string)
        (result : verdict) (context : option nat)
| AttributeError
| TypeError
| UnicodeDecodeError
| OSError
| ValueError
| re_error.

(** [Error(rationale)], with the defaults of [Error.__init__]. *)
Definition Error_ (rationale : string) : exn :=
  Error (Some (msg_str rationale)) None FAIL None.

(** The outcome of a call on an object of state [S]: the value returned or the
    exception raised, with the state after the call. *)
Inductive outcome (V S : Type) :=
| Return (v : V) (s : S)
| Raise (e : exn) (s : S).
Arguments Return {V S} v s.
Arguments Raise {V S} e s.

(** [signal.SIGSEGV] *)
Definition SIGSEGV : Z := 11.

(* ===================================================================== *)
(** ** The pexpect process *)
(* ===================================================================== *)

Module pexpect.

(** The answers of [read_nonblocking(size=1024, timeout=0)] on an open
    process: the bytes read, or the exception raised. *)
Inductive read :=
| data (bytes : string)
| TIMEOUT
| EOF
| UnicodeDecodeError.

(** The answers of [expect(".+", timeout=timeout)] on an open process. *)
Inductive expected := matched | expect_TIMEOUT | expect_EOF.

(** What was written to the process. *)
Inductive sent := sendline (line : string) | sendeof.

(** A spawned process, as the harness sees it.
    - [now]: the wall clock, in ticks;
    - [alive t]: whether the process, left to itself, still runs at time
      [t];
    - [pipe]: the answers of the successive [read_nonblocking] calls; once
      they are used up there is nothing to read ([TIMEOUT]);
    - [prompts]: the answers of the successive [expect] calls ([TIMEOUT]
      once used up);
    - [written]: what [sendline] and [sendeof] have sent;
    - [closed]: [close(force=True)] was called.  It closes the descriptor
      of the process and terminates it: from then on [isalive()] is false,
      and reading from the process or writing to it raises;
    - [exitstatus], [signalstatus]: the attributes as they read after
      [close]. *)
Record spawn := mk {
  now : nat;
  alive : nat -> bool;
  pipe : list read;
  prompts : list expected;
  written : list sent;
  closed : bool;
  exitstatus : option Z;
  signalstatus : option Z
}.

(** [isalive()] *)
Definition isalive (p : spawn) : bool := negb (closed p) && alive p (now p).

Definition set_pipe (l : list read) (p : spawn) : spawn :=
  mk (now p) (alive p) l (prompts p) (written p) (closed p) (exitstatus p) (signalstatus p).

(** [read_nonblocking(size=1024, timeout=0)]; [None] on a closed process,
    where it raises [ValueError] (I/O operation on closed file). *)
Definition read_nonblocking (p : spawn) : option (read * spawn) :=
  if closed p then None
  else Some match pipe p with
            | [] => (TIMEOUT, p)
            | r :: rest => (r, set_pipe rest p)
            end.

(** [expect(".+", timeout=timeout)].  The pattern takes all there is to
    read, so every call has to read from the process: on a closed process
    it raises the [ValueError] of that read ([None]), which [expect] hands
    on. *)
Definition expect (p : spawn) : option (expected * spawn) :=
  if closed p then None
  else Some match prompts p with
            | [] => (expect_TIMEOUT, p)
            | a :: rest =>
                (a, mk (now p) (alive p) (pipe p) rest (written p) (closed p)
                       (exitstatus p) (signalstatus p))
            end.

(** [sendline(line)] and [sendeof()]; [None] on a closed process, where the
    write raises [send_closed]. *)
Definition send (x : sent) (p : spawn) : option spawn :=
  if closed p then None
  else Some (mk (now p) (alive p) (pipe p) (prompts p) (written p ++ [x]) (closed p)
                (exitstatus p) (signalstatus p)).

(** What a write to a closed process raises: [sendline] writes with
    [os.write] to the descriptor, which is -1 by then ([OSError]);
    [sendeof] writes to the file object of the pty, which is closed
    ([ValueError]). *)
Definition send_closed (x : sent) : exn :=
  match x with
  | sendline _ => OSError
  | sendeof => ValueError
  end.

(** [close(force=True)] *)
Definition close (p : spawn) : spawn :=
  mk (now p) (alive p) (pipe p) (prompts p) (written p) true
     (exitstatus p) (signalstatus p).

(** The process as [pexpect.spawn(command)] returns it: open, with nothing
    written to it. *)
Definition started (p : spawn) : spawn :=
  mk (now p) (alive p) (pipe p) (prompts p) [] false
     (exitstatus p) (signalstatus p).

(** One turn of a polling loop takes one tick. *)
Definition tick (p : spawn) : spawn :=
  mk (S (now p)) (alive p) (pipe p) (prompts p) (written p) (closed p)
     (exitstatus p) (signalstatus p).

End pexpect.

(* ===================================================================== *)
(** ** Status, Payload and Child *)
(* ===================================================================== *)

Module Status.
(** [class Status]: its only attribute is [failed]. *)
Record t := mk { failed : bool }.
Definition init : t := mk false.
End Status.

Module Payload.
Record t := mk {
  output : string;
  exit : option Z;
  error_message : message;
  help_message : string
}.
Definition init : t := mk EmptyString None (msg_str EmptyString) EmptyString.

Definition set_output (s : string) (p : t) : t :=
  mk s (exit p) (error_message p) (help_message p).
Definition set_exit (e : option Z) (p : t) : t :=
  mk (output p) e (error_message p) (help_message p).
Definition set_error_message (m : message) (p : t) : t :=
  mk (output p) (exit p) m (help_message p).
Definition set_help_message (h : string) (p : t) : t :=
  mk (output p) (exit p) (error_message p) h.
End Payload.

Module Child.

(** Wrapper class for a pexpect child.  [test_log] is [self.test.log], the
    log of the test that owns the Child. *)
Record t := mk {
  test_log : list string;
  child : pexpect.spawn;
  payload : Payload.t;
  status : Status.t
}.

(** [Child(test, child)] *)
Definition init (log : list string) (p : pexpect.spawn) : t :=
  mk log p Payload.init Status.init.

Definition failed (c : t) : bool := Status.failed (status c).

Definition log_append (s : string) (c : t) : t :=
  mk (test_log c ++ [s]) (child c) (payload c) (status c).
Definition set_child (p : pexpect.spawn) (c : t) : t :=
  mk (test_log c) p (payload c) (status c).
Definition set_payload (p : Payload.t) (c : t) : t :=
  mk (test_log c) (child c) p (status c).
Definition set_status (s : Status.t) (c : t) : t :=
  mk (test_log c) (child c) (payload c) s.

(** The argument of [stdin]: a line, or the class [EOF]. *)
Inductive line := line_EOF | line_str (s : string).

(** What a method returns: [self], or (from [exit()]) the exit status. *)
Inductive value := self | exit_status (code : option Z).

Definition ret : Type := outcome value t.

(** [fail(error_message)]: set the latch; record the message unless one is
    recorded already. *)
Definition fail (error_message : message) (c : t) : t :=
  let c := set_status (Status.mk true) c in
  if negb (message_truthy (Payload.error_message (payload c)))
  then set_payload (Payload.set_error_message error_message (payload c)) c
  else c.

(** [kill()]: [self.child.close(force=True)] *)
Definition kill (c : t) : t := set_child (pexpect.close (child c)) c.

(** How the polling loop of [wait] ends: by [break] (the process is gone, or
    the pipe is at EOF), by its [else] clause (the deadline has passed), by
    the [return] on undecodable output, or by the [ValueError] of a read on
    a closed process, which the loop does not catch. *)
Inductive polled := poll_break | poll_else | poll_undecodable | poll_closed.

(** The loop [while time.time() <= end].  [turns] is the number of clock
    readings that still satisfy the test.  The clock has moved on, by less
    than a tick, between the reading that sets [end = time.time() + timeout]
    and the first test, and a turn takes one tick: so the readings at the
    turns 0 to [timeout - 1] satisfy the test and there are [timeout]
    turns, none at all for a timeout of 0. *)
Fixpoint poll (turns : nat) (p : pexpect.spawn) (out : list string)
  : polled * pexpect.spawn * list string :=
  match turns with
  | O => (poll_else, p, out)
  | S turns' =>
      if negb (pexpect.isalive p) then (poll_break, p, out)
      else
        match pexpect.read_nonblocking p with
        | None => (poll_closed, p, out)
        | Some (pexpect.TIMEOUT, p') => poll turns' (pexpect.tick p') out
        | Some (pexpect.EOF, p') => (poll_break, p', out)
        | Some (pexpect.UnicodeDecodeError, p') => (poll_undecodable, p', out)
        | Some (pexpect.data bytes, p') => poll turns' (pexpect.tick p') (out ++ [bytes])
        end
  end.

(** The loop that reads any remaining data in the pipe of an open process:
    it stops at the first [TIMEOUT] or [EOF]; a [UnicodeDecodeError] is not
    caught there ([None]).  Returns the chunks and what is left of the
    pipe. *)
Fixpoint drain (pipe : list pexpect.read) (out : list string)
  : option (list string) * list pexpect.read :=
  match pipe with
  | [] => (Some out, [])
  | pexpect.data bytes :: rest => drain rest (out ++ [bytes])
  | pexpect.TIMEOUT :: rest | pexpect.EOF :: rest => (Some out, rest)
  | pexpect.UnicodeDecodeError :: rest => (None, rest)
  end.

(** [payload.output] as [wait] sets it from the chunks read. *)
Definition normalize (out : list string) : string :=
  Str.lstrip Str.newline (Str.replace Str.crlf Str.newline (Str.join EmptyString out)).

(** [wait(timeout)].  On a closed process the first read of the second
    loop raises [ValueError], which that loop does not catch. *)
Definition wait (timeout : nat) (c : t) : ret :=
  match poll timeout (child c) [] with
  | (poll_else, p, _) =>
      Raise (Error (Some (msg_str "timed out while waiting for program to exit"))
                   None FAIL (Some timeout))
            (set_child p c)
  | (poll_undecodable, p, _) =>
      Return self (fail (msg_str "output not valid ASCII text") (set_child p c))
  | (poll_closed, p, _) => Raise ValueError (set_child p c)
  | (poll_break, p, out) =>
      if pexpect.closed p then Raise ValueError (set_child p c)
      else
        match drain (pexpect.pipe p) out with
        | (None, rest) => Raise UnicodeDecodeError (set_child (pexpect.set_pipe rest p) c)
        | (Some out, rest) =>
            let c := set_child (pexpect.set_pipe rest p) c in
            let c := set_payload (Payload.set_output (normalize out) (payload c)) c in
            let c := kill c in
            if bool_decide (pexpect.signalstatus (child c) = Some SIGSEGV)
            then Return self (fail (msg_str "failed to execute program due to segmentation fault") c)
            else Return self (set_payload (Payload.set_exit (pexpect.exitstatus (child c)) (payload c)) c)
        end
  end.

(** What [stdin] sends for its argument. *)
Definition sending (line : line) : pexpect.sent :=
  match line with
  | line_EOF => pexpect.sendeof
  | line_str s => pexpect.sendline s
  end.

(** [stdin(line, prompt, timeout)].  Only [TIMEOUT] and [EOF] are caught
    around [expect]; what a closed process raises goes through. *)
Definition stdin (line : line) (prompt : bool) (timeout : nat) (c : t) : ret :=
  if failed c then Return self c
  else
    let c := log_append (match line with
                         | line_EOF => "sending EOF..."
                         | line_str s => "sending input " +:+ s +:+ "..."
                         end) c in
    match (if prompt then pexpect.expect (child c) else Some (pexpect.matched, child c)) with
    | None => Raise ValueError c
    | Some (pexpect.matched, p) =>
        match pexpect.send (sending line) p with
        | Some p' => Return self (set_child p' c)
        | None => Raise (pexpect.send_closed (sending line)) (set_child p c)
        end
    | Some (_, p) =>
        Return self (fail (msg_str "expected prompt for input, found none") (set_child p c))
    end.

(** [match(output, str_output)].  A [File] is compared literally with the
    output, a str is a regular expression matched at its start, and
    [re.match] raises [re.error] when it does not compile; for the class
    [EOF] and for a list [re.match] raises [TypeError].  The test
    [output == EOF] that follows in the source is then false on every path
    that reaches it. *)
Definition match_ `{Python} (output : pyval) (str_output : option pyval) (c : t) : ret :=
  if failed c then Return self c
  else
    let str_output := match str_output with None => output | Some v => v end in
    let c := log_append (match output with
                         | v_EOF => "checking for EOF..."
                         | _ => "checking for output " +:+ Str.quote +:+ format str_output
                                  +:+ Str.quote +:+ "..."
                         end) c in
    let mismatch :=
      msg_mismatch (Mismatch.mk str_output
                      (v_str (Str.replace Str.crlf Str.newline (Payload.output (payload c))))) in
    match output with
    | v_File f =>
        if String.eqb (contents f) (Payload.output (payload c))
        then Return self c else Return self (fail mismatch c)
    | v_str pattern =>
        match re_match pattern (Payload.output (payload c)) with
        | None => Raise re_error c
        | Some true => Return self c
        | Some false => Return self (fail mismatch c)
        end
    | v_EOF | v_list _ => Raise TypeError c
    end.

(** [stdout(output, str_output, timeout)] *)
Definition stdout `{Python} (output str_output : option pyval) (timeout : nat) (c : t) : ret :=
  if failed c then Return self c
  else
    match wait timeout c with
    | Raise e c => Raise e c
    | Return _ c =>
        match output with
        | Some v => if truthy output then match_ v str_output c else Return self c
        | None => Return self c
        end
    end.

(** [reject(timeout)] *)
Definition reject (timeout : nat) (c : t) : ret :=
  if failed c then Return self c
  else
    let c := log_append "checking that input was rejected..." c in
    match wait timeout c with
    | Raise (Error rationale helpers result context) c =>
        match context with
        | Some _ => Return self c
        | None => Raise (Error rationale helpers result context) c
        end
    | Raise e c => Raise e c
    | Return _ c =>
        Return self (fail (msg_str "expected program to reject input, but it did not") c)
    end.

(** [exit(code, timeout)].  On a mismatch the source formats its message
    with [self.status.exit]; [Status] has no such attribute, so the
    evaluation of the argument raises [AttributeError] before [fail] is
    called. *)
Definition exit (code : option Z) (timeout : nat) (c : t) : ret :=
  if failed c then Return self c
  else
    match wait timeout c with
    | Raise e c => Raise e c
    | Return _ c =>
        match code with
        | None => Return (exit_status (Payload.exit (payload c))) c
        | Some k =>
            let c := log_append ("checking that program exited with status "
                                   +:+ pretty k +:+ "...") c in
            if bool_decide (Payload.exit (payload c) = Some k)
            then Return self c
            else Raise AttributeError c
        end
    end.

(** [help(message)] *)
Definition help (message : string) (c : t) : ret :=
  if failed c then Return self c
  else Return self (set_payload (Payload.set_help_message message (payload c)) c).

End Child.

(* ===================================================================== *)
(** ** Checks: the test object, the check decorator, the valgrind report *)
(* ===================================================================== *)

Module Checks.

(** The attributes of a [Checks] test object ([Checks.__init__]). *)
Record t := mk {
  _testMethodName : string;
  result : verdict;
  rationale : option message;
  helpers : option string;
  log : list string;
  children : list Child.t;
  dir : string
}.

Definition init (method_name : string) : t :=
  mk method_name FAIL None None [] [] EmptyString.

Definition set_result (r : verdict) (s : t) : t :=
  mk (_testMethodName s) r (rationale s) (helpers s) (log s) (children s) (dir s).
Definition set_rationale (r : option message) (s : t) : t :=
  mk (_testMethodName s) (result s) r (helpers s) (log s) (children s) (dir s).
Definition set_helpers (h : option string) (s : t) : t :=
  mk (_testMethodName s) (result s) (rationale s) h (log s) (children s) (dir s).
Definition set_log (l : list string) (s : t) : t :=
  mk (_testMethodName s) (result s) (rationale s) (helpers s) l (children s) (dir s).
Definition set_dir (d : string) (s : t) : t :=
  mk (_testMethodName s) (result s) (rationale s) (helpers s) (log s) (children s) d.
Definition set_children (l : list Child.t) (s : t) : t :=
  mk (_testMethodName s) (result s) (rationale s) (helpers s) (log s) l (dir s).

(** *** The valgrind report *)

(** A [frame] element of a stack: the text of its [obj], [file] and [line]
    children, [None] where [find] finds no such child. *)
Record frame := { obj : option string; file : option string; line : option string }.

(** An [error] element of the report: the text of [kind], [what] and
    [xwhat/text] ([None] where [find] finds none), and what
    [iterfind("stack/frame")] yields. *)
Record error := {
  kind : option string;
  what : option string;
  xwhat_text : option string;
  frames : list frame
}.

(** The loop over the frames: what it appends to [msg].  It stops at the
    first frame whose object is in [dir], and appends the location when
    that frame has both a file and a line. *)
Fixpoint location (dir : string) (fs : list frame) : list string :=
  match fs with
  | [] => []
  | f :: rest =>
      match obj f with
      | Some o =>
          if String.eqb (Str.dirname o) dir
          then match file f, line f with
               | Some fl, Some ln => [": (file: " +:+ fl +:+ ", line: " +:+ ln +:+ ")"]
               | _, _ => []
               end
          else location dir rest
      | None => location dir rest
      end
  end.

(** The message composed for one error; [None] when [kind] or the message
    element is missing ([AttributeError] on [.text]). *)
Definition compose (dir : string) (e : error) : option string :=
  match kind e with
  | None => None
  | Some k =>
      match (if Str.startswith k "Leak_" then xwhat_text e else what e) with
      | None => None
      | Some w => Some (Str.join EmptyString ([Str.tab; w] ++ location dir (frames e)))
      end
  end.

(** The loop over the errors, on the log and the set [reported].  The
    boolean tells whether the loop ran to its end ([false]: an
    [AttributeError] stopped it). *)
Fixpoint scan (dir : string) (errors : list error) (log : list string)
         (reported : gset string) : list string * gset string * bool :=
  match errors with
  | [] => (log, reported, true)
  | e :: rest =>
      match compose dir e with
      | None => (log, reported, false)
      | Some msg =>
          if bool_decide (msg ∈ reported)
          then scan dir rest log reported
          else scan dir rest (log ++ [msg]) ({[msg]} ∪ reported)
      end
  end.

(** [_check_valgrind()], on the errors of the parsed report. *)
Definition _check_valgrind (report : list error) (s : t) : outcome unit t :=
  let s := set_log (log s ++ ["checking for valgrind errors... "]) s in
  match scan (dir s) report (log s) ∅ with
  | (l, _, false) => Raise AttributeError (set_log l s)
  | (l, reported, true) =>
      if bool_decide (reported = ∅)
      then Return tt (set_log l s)
      else Raise (Error_ "valgrind tests failed; rerun with --log for more information.")
                 (set_log l s)
  end.

End Checks.

(** [config], the filesystem and the working directory: the state a check
    runs in. *)
Record world := mk_world {
  this : Checks.t;
  tempdir : string;
  test_results : gmap string verdict;
  directories : gset string;
  cwd : string
}.

Definition set_this (s : Checks.t) (w : world) : world :=
  mk_world s (tempdir w) (test_results w) (directories w) (cwd w).
Definition set_test_results (r : gmap string verdict) (w : world) : world :=
  mk_world (this w) (tempdir w) r (directories w) (cwd w).
Definition set_directories (d : gset string) (w : world) : world :=
  mk_world (this w) (tempdir w) (test_results w) d (cwd w).
Definition set_cwd (d : string) (w : world) : world :=
  mk_world (this w) (tempdir w) (test_results w) (directories w) d.

(** [config.test_results.get(name)]: [None], which is [Checks.SKIP], for a
    name with no entry. *)
Definition get (results : gmap string verdict) (name : string) : verdict :=
  match results !! name with
  | Some r => r
  | None => SKIP
  end.

(** [shutil.copytree(src, dst)] on the set of directories: [src] must exist
    and [dst] must not. *)
Definition copytree (src dst : string) (dirs : gset string) : option (gset string) :=
  if bool_decide (src ∈ dirs) && negb (bool_decide (dst ∈ dirs))
  then Some ({[dst]} ∪ dirs)
  else None.

(** [dependency and config.test_results.get(dependency) != Checks.PASS] *)
Definition blocked (dependency : option string) (results : gmap string verdict) : bool :=
  match dependency with
  | None => false
  | Some d => Str.truthy d && negb (verdict_eqb (get results d) PASS)
  end.

(** [dependency or "_"] *)
Definition dependency_or (dependency : option string) : string :=
  match dependency with
  | Some d => if Str.truthy d then d else "_"
  | None => "_"
  end.

(** The body of a check: [func(self)]. *)
Definition body : Type := world -> outcome unit world.

(** [self.result = config.test_results[func.__name__] = result] *)
Definition store (name : string) (r : verdict) (w : world) : world :=
  set_test_results (<[name := r]> (test_results w)) (set_this (Checks.set_result r (this w)) w).

(** The [try] block of the wrapper: the body, then the test on the last
    child, which raises an [Error] built from its payload. *)
Definition attempt (func : body) (w : world) : outcome unit world :=
  match func w with
  | Raise e w => Raise e w
  | Return _ w =>
      match last (Checks.children (this w)) with
      | Some c =>
          if Child.failed c
          then Raise (Error (Some (Payload.error_message (Child.payload c)))
                            (Some (Payload.help_message (Child.payload c))) FAIL None) w
          else Return tt w
      | None => Return tt w
      end
  end.

(** The wrapper that [check(dependency)] puts around [func], whose name is
    [name]. *)
Definition check (dependency : option string) (name : string) (func : body)
           (w : world) : outcome unit world :=
  if blocked dependency (test_results w)
  then
    let w := store name SKIP w in
    Return tt (set_this (Checks.set_rationale
                           (Some (msg_str "can't check until a frown turns upside down"))
                           (this w)) w)
  else
    let dst_dir := Str.path_join (tempdir w) (Checks._testMethodName (this w)) in
    let w := set_this (Checks.set_dir dst_dir (this w)) w in
    let src_dir := Str.path_join (tempdir w) (dependency_or dependency) in
    match copytree src_dir dst_dir (directories w) with
    | None => Raise OSError w
    | Some dirs =>
        let w := set_cwd (Checks.dir (this w)) (set_directories dirs w) in
        match attempt func w with
        | Raise (Error rationale helpers result _) w =>
            let w := set_this (Checks.set_helpers helpers
                                 (Checks.set_rationale rationale (this w))) w in
            Return tt (store name result w)
        | Raise e w => Raise e w
        | Return _ w => Return tt (store name PASS w)
        end
    end.

(** The state an outcome leaves behind. *)
Definition state {V S : Type} (o : outcome V S) : S :=
  match o with
  | Return _ s => s
  | Raise _ s => s
  end.

(** A call went through: it returned, and the Child has not failed. *)
Definition succeeds (r : Child.ret) : Prop :=
  exists c, r = Return Child.self c /\ Child.failed c = false.

(** What the [i]-th turn of the polling loop reads from the process [p]. *)
Definition reading (p : pexpect.spawn) (i : nat) : pexpect.read :=
  nth i (pexpect.pipe p) pexpect.TIMEOUT.

(** The process holds out at turn [i] of the polling loop: it is open and
    alive then, and its pipe is neither at its end nor undecodable. *)
Definition holds_out (p : pexpect.spawn) (i : nat) : Prop :=
  pexpect.closed p = false
  /\ pexpect.alive p (pexpect.now p + i) = true
  /\ reading p i <> pexpect.EOF
  /\ reading p i <> pexpect.UnicodeDecodeError.

(** The spec's words for the valgrind log: "Dedupe by the exact composed
    message string; keep first-seen order": each message stays where it is
    seen first, and its later copies are dropped. *)
Fixpoint dedupe (msgs : list string) : list string :=
  match msgs with
  | [] => []
  | m :: rest => m :: filter (fun x => x <> m) (dedupe rest)
  end.

(** A frame of the program under test: its object is directly in [dir]. *)
Definition inside (dir : string) (f : Checks.frame) : bool :=
  match Checks.obj f with
  | Some o => String.eqb (Str.dirname o) dir
  | None => false
  end.

(* ===================================================================== *)
(** ** An interpreter for the examples *)
(* ===================================================================== *)

Module Ascii_python.

Definition hex_digit (n : nat) : ascii :=
  nth n ["0"; "1"; "2"; "3"; "4"; "5"; "6"; "7"; "8"; "9";
         "a"; "b"; "c"; "d"; "e"; "f"]%char "0"%char.

(** One character of the [repr] of a str, inside the quotes [q]. *)
Definition escape (q c : ascii) : string :=
  let n := nat_of_ascii c in
  if Ascii.eqb c Str.BACKSLASH || Ascii.eqb c q then String Str.BACKSLASH (String c EmptyString)
  else if Ascii.eqb c Str.TAB then "\t"
  else if Ascii.eqb c Str.LF then "\n"
  else if Ascii.eqb c Str.CR then "\r"
  else if (n <? 32)%nat || (126 <? n)%nat
       then "\x" +:+ String (hex_digit (n / 16)) (String (hex_digit (n mod 16)) EmptyString)
  else String c EmptyString.

Fixpoint escape_all (q : ascii) (s : string) : string :=
  match s with
  | EmptyString => EmptyString
  | String c rest => escape q c +:+ escape_all q rest
  end.

(** [repr] of a str of ASCII characters: single quotes, unless the str has
    a single quote and no double quote. *)
Definition repr_str (s : string) : string :=
  let q := if Str.mem Str.APOSTROPHE s && negb (Str.mem Str.QUOTE s)
           then Str.QUOTE else Str.APOSTROPHE in
  String q (escape_all q s) +:+ String q EmptyString.

(** An interpreter for ASCII strs and for patterns without metacharacters,
    which [re.match] finds exactly at the start of the strs they are a
    prefix of. *)
Definition python : Python := {|
  re_match := fun pattern s => Some (String.prefix pattern s);
  str_object := fun _ => "<object>";
  repr := fun v => match v with v_str s => repr_str s | _ => "<object>" end
|}.

End Ascii_python.

(** ** Processes and children for the examples *)

Module Examples.

(** A process at time 0 that has not been prompted or written to: what it
    answers to [isalive] and [read_nonblocking], and how it ends (for a
    process that [close] has to kill, signal 1, SIGHUP). *)
Definition process (alive : nat -> bool) (pipe : list pexpect.read)
           (exitstatus signalstatus : option Z) : pexpect.spawn :=
  pexpect.mk 0 alive pipe [] [] false exitstatus signalstatus.

(** Exits at once with status 1, without output. *)
Definition exits_1 : Child.t :=
  Child.init [] (process (fun _ => false) [] (Some 1%Z) None).


(** Stays alive and writes nothing. *)
Definition silent : Child.t :=
  Child.init [] (process (fun _ => true) [] None (Some 1%Z)).

(** Writes [a\r\nb] in two chunks, then exits with status 0. *)
Definition crlf_writer : Child.t :=
  Child.init [] (process (fun t => (t <? 2)%nat)
                   [pexpect.data ("a" +:+ String Str.CR EmptyString);
                    pexpect.data (Str.newline +:+ "b"); pexpect.EOF]
                   (Some 0%Z) None).

(** A file of the check directory that holds [a\nb]. *)
Definition expected_txt : File :=
  {| filename := "expected.txt"; contents := "a" +:+ Str.newline +:+ "b" |}.

(** Writes a line, then dies of a segmentation fault during the second turn. *)
Definition segfaulter : Child.t :=
  Child.init [] (process (fun t => (t <? 1)%nat) [pexpect.data "working"]
                   None (Some SIGSEGV)).

(** A child that failed on a missing prompt and whose process is gone. *)
Definition broken : Child.t :=
  Child.fail (msg_str "expected prompt for input, found none")
    (Child.init ["sending input 1..."]
       (process (fun _ => false) [pexpect.data "late"] (Some 0%Z) None)).

(** A run in [/tmp/check50]: the fixtures are in [_], the check [compiles]
    has failed, the check [exists] has passed and left its directory. *)
Definition run (method_name : string) : world :=
  mk_world (Checks.init method_name) "/tmp/check50"
           (<["exists" := PASS]> (<["compiles" := FAIL]> ∅))
           ({["/tmp/check50/_"; "/tmp/check50/exists"; "/tmp/check50/compiles"]})
           "/tmp/check50".

(** Frames of a valgrind stack: one in valgrind's own malloc, one in the
    C library, one in the program under test, one in the program under
    test without debug information. *)
Definition in_malloc : Checks.frame :=
  {| Checks.obj := Some "/usr/lib/valgrind/vgpreload_memcheck-amd64-linux.so";
     Checks.file := Some "vg_replace_malloc.c"; Checks.line := Some "299" |}.
Definition in_libc : Checks.frame :=
  {| Checks.obj := Some "/lib/x86_64-linux-gnu/libc.so.6";
     Checks.file := None; Checks.line := None |}.
Definition in_main : Checks.frame :=
  {| Checks.obj := Some "/tmp/check50/leaks/hello";
     Checks.file := Some "hello.c"; Checks.line := Some "7" |}.

(** Errors of a report: a leak, and an invalid read. *)
Definition leak (fs : list Checks.frame) : Checks.error :=
  {| Checks.kind := Some "Leak_DefinitelyLost"; Checks.what := None;
     Checks.xwhat_text := Some "40 bytes in 1 blocks are definitely lost";
     Checks.frames := fs |}.
Definition invalid_read (fs : list Checks.frame) : Checks.error :=
  {| Checks.kind := Some "InvalidRead"; Checks.what := Some "Invalid read of size 4";
     Checks.xwhat_text := None; Checks.frames := fs |}.

(** A report with the same leak twice, an invalid read between them. *)
Definition report : list Checks.error :=
  [leak [in_malloc; in_main]; invalid_read [in_libc]; leak [in_malloc; in_main; in_libc]].

(** The test object of the check [leaks], in its directory. *)
Definition leaks : Checks.t :=
  Checks.set_dir "/tmp/check50/leaks" (Checks.init "leaks").

(** A body that leaves the children [l] behind and returns. *)
Definition leaves (l : list Child.t) : body :=
  fun w => Return tt (set_this (Checks.set_children l (this w)) w).

End Examples.

(* ===================================================================== *)
(** ** More of the harness: conditions, spawn, diff, require, tearDown *)
(* ===================================================================== *)

Module Conditional.

(** The module-level [fail(child)]: [child.status.failed]. *)
Definition fail (c : Child.t) : bool := Child.failed c.

(** A Child and the Childs that [on] has made from it are distinct objects
    over the same test, the same process and the same [Payload] object:
    what one of them writes there, all of them read.  Each has a [Status]
    object of its own.  A [family] is that shared state with the statuses
    of its members, the original first; a member is named by its place. *)
Record family := mk {
  test_log : list string;
  child : pexpect.spawn;
  payload : Payload.t;
  statuses : list Status.t
}.

(** The family of a Child that [on] has not been called on. *)
Definition alone (c : Child.t) : family :=
  mk (Child.test_log c) (Child.child c) (Child.payload c) [Child.status c].

(** The member at place [i], as the methods see it. *)
Definition member (i : nat) (f : family) : option Child.t :=
  match statuses f !! i with
  | Some s => Some (Child.mk (test_log f) (child f) (payload f) s)
  | None => None
  end.

(** The family after a method has left the member at place [i] as [c]:
    the test, the process and the payload are those of all members, the
    status is its own. *)
Definition put (i : nat) (c : Child.t) (f : family) : family :=
  mk (Child.test_log c) (Child.child c) (Child.payload c)
     (<[i := Child.status c]> (statuses f)).

(** A method call on the member at place [i]; [None] when there is no such
    member. *)
Definition call (method : Child.t -> Child.ret) (i : nat) (f : family)
  : option (outcome Child.value family) :=
  match member i f with
  | Some c =>
      Some match method c with
           | Return v c' => Return v (put i c' f)
           | Raise e c' => Raise e (put i c' f)
           end
  | None => None
  end.

(** [on(condition)], called on the member at place [i]: a new member with
    [new.payload = self.payload] and a fresh status, which is failed at
    once, by [new.fail()], when the condition does not hold of [self].
    Returns the place of the new member. *)
Definition on (condition : Child.t -> bool) (i : nat) (f : family)
  : option (nat * family) :=
  match member i f with
  | Some c =>
      let new := length (statuses f) in
      let f := mk (test_log f) (child f) (payload f) (statuses f ++ [Status.init]) in
      Some (new,
            if negb (condition c)
            then put new (Child.fail (msg_str EmptyString)
                            (Child.mk (test_log f) (child f) (payload f) Status.init)) f
            else f)
  | None => None
  end.

End Conditional.

(** A Child carries a message only when its latch is set. *)
Definition latched_message (c : Child.t) : Prop :=
  message_truthy (Payload.error_message (Child.payload c)) = true ->
  Child.failed c = true.

(** An argument of [diff]: a file name or a [File]. *)
Inductive path_arg := path_str (s : string) | path_File (f : File).

(** [f.filename if isinstance(f, File) else f] *)
Definition path_name (f : path_arg) : string :=
  match f with
  | path_str s => s
  | path_File f => filename f
  end.

(** The state a check runs in, with the attribute [_valgrind] of the test
    object, which [Checks.t] does not carry. *)
Record vworld := mk_vworld { plain : world; _valgrind : bool }.

Definition set_plain (w : world) (v : vworld) : vworld := mk_vworld w (_valgrind v).
Definition set_valgrind (b : bool) (v : vworld) : vworld := mk_vworld (plain v) b.

(** A body that may read [_valgrind]. *)
Definition vbody : Type := vworld -> outcome unit vworld.

(** A body as [check] runs it: [_valgrind] is the class attribute [False]
    when the body starts. *)
Definition lower (func : vbody) : body :=
  fun w =>
    match func (mk_vworld w false) with
    | Return v s => Return v (plain s)
    | Raise e s => Raise e (plain s)
    end.

Module Methods.

(** The command [spawn] hands to pexpect.  [quote] is [shlex.quote]. *)
Definition command_line (quote : string -> string) (valgrind_on : bool)
           (dir cmd : string) : string :=
  let cmd := if valgrind_on
             then "valgrind --show-leak-kinds=all --xml=yes --xml-file="
                    +:+ Str.path_join dir "valgrind.xml" +:+ " -- " +:+ cmd
             else cmd in
  "bash -c " +:+ quote cmd.

(** [spawn(cmd)]: log the command, start the process ([launch] gives the
    process that [pexpect.spawn] or [spawnu] starts for a command line),
    wrap it in a Child and append that to [self.children].  Returns the
    state and [self.children[-1]].  The environment [env] only reaches
    pexpect and is left out. *)
Definition spawn (quote : string -> string) (launch : string -> pexpect.spawn)
           (cmd : string) (v : vworld) : vworld * Child.t :=
  let s := this (plain v) in
  let s := Checks.set_log
             (Checks.log s ++ [if _valgrind v
                               then "running valgrind " +:+ cmd +:+ "..."
                               else "running " +:+ cmd +:+ "..."]) s in
  let c := Child.init (Checks.log s)
             (pexpect.started
                (launch (command_line quote (_valgrind v) (Checks.dir s) cmd))) in
  let s := Checks.set_children (Checks.children s ++ [c]) s in
  (set_plain (set_this s (plain v)) v, c).

(** The Child at the end of [self.children] after a method has run on it. *)
Definition set_last_child (c : Child.t) (v : vworld) : vworld :=
  let s := this (plain v) in
  set_plain (set_this (Checks.set_children (removelast (Checks.children s) ++ [c]) s)
                      (plain v)) v.

(** [diff(f1, f2)]: [bool(self.spawn(..).wait().status.exit)].  [wait] runs
    with its default timeout; when it returns, [.status.exit] is read off a
    [Status], which has no such attribute. *)
Definition diff (quote : string -> string) (launch : string -> pexpect.spawn)
           (f1 f2 : path_arg) (v : vworld) : outcome bool vworld :=
  let (v, c) := spawn quote launch
                  ("diff " +:+ quote (path_name f1) +:+ " " +:+ quote (path_name f2)) v in
  match Child.wait 5 c with
  | Raise e c => Raise e (set_last_child c v)
  | Return _ c => Raise AttributeError (set_last_child c v)
  end.

(** [require], on the list of its arguments; [exists_] is [os.path.exists]. *)
Fixpoint require (exists_ : string -> bool) (paths : list string) (s : Checks.t)
  : outcome unit Checks.t :=
  match paths with
  | [] => Return tt s
  | path :: rest =>
      let s := Checks.set_log (Checks.log s ++ ["Checking that " +:+ path +:+ " exists..."]) s in
      if exists_ path then require exists_ rest s
      else Raise (Error_ (path +:+ " not found")) s
  end.

(** The loop of [tearDown]: [while self.children: self.children.pop().kill()].
    Returns the test object and the children it has killed, in that order.
    [turns] bounds the turns of the loop; it takes one per child. *)
Fixpoint tearDown_loop (turns : nat) (s : Checks.t) (killed : list Child.t)
  : Checks.t * list Child.t :=
  match turns with
  | O => (s, killed)
  | S turns' =>
      match last (Checks.children s) with
      | None => (s, killed)
      | Some c =>
          tearDown_loop turns'
            (Checks.set_children (removelast (Checks.children s)) s)
            (killed ++ [Child.kill c])
      end
  end.

(** [tearDown()] *)
Definition tearDown (s : Checks.t) : Checks.t * list Child.t :=
  tearDown_loop (length (Checks.children s)) s [].

(** The wrapper [valgrind(func)] puts around [func].  [installed] is
    [which("valgrind")]; [xml] gives the errors of the report that is in the
    directory of the check once [func] has run. *)
Definition valgrind (installed : bool) (xml : vworld -> list Checks.error)
           (func : vbody) : vbody :=
  fun v =>
    if negb installed
    then Raise (Error (Some (msg_str "valgrind not installed")) None SKIP None) v
    else
      let v := set_valgrind true v in
      match func v with
      | Raise e v => Raise e (set_valgrind false v)
      | Return _ v =>
          match Checks._check_valgrind (xml v) (this (plain v)) with
          | Return _ s => Return tt (set_valgrind false (set_plain (set_this s (plain v)) v))
          | Raise e s => Raise e (set_valgrind false (set_plain (set_this s (plain v)) v))
          end
      end.

End Methods.

(** ** Decoration: the order of [@check] and [@valgrind] *)

(** What applying a decorator does at declaration time. *)
Inductive decoration :=
| decorated
| raises_InternalError (msg : string)
| raises_IndexError.

(** [check(dependency)(func)] at declaration time:
    [config.test_cases.append(func.__name__)]. *)
Definition check_declares (test_cases : list string) (name : string) : list string :=
  test_cases ++ [name].

(** [valgrind(func)] at declaration time; [frame_name], [lineno] and
    [file_name] are those of the caller's frame. *)
Definition valgrind_declares (test_cases : list string) (name : string)
           (frame_name : string) (lineno : Z) (file_name : string) : decoration :=
  match last test_cases with
  | None => raises_IndexError
  | Some declared =>
      if String.eqb declared name
      then raises_InternalError
             ("invalid check in " +:+ frame_name +:+ " on line " +:+ pretty lineno
                +:+ " of " +:+ file_name +:+ ":" +:+ Str.newline
                +:+ "@valgrind must be placed below @check")
      else decorated
  end.

(** ** import_checks: the identifier and the paths *)

Module Identifier.

(** [s.split(sep)] for a separator of one character. *)
Fixpoint split (sep : ascii) (s : string) : list string :=
  match s with
  | EmptyString => [EmptyString]
  | String c rest =>
      if Ascii.eqb c sep then EmptyString :: split sep rest
      else match split sep rest with
           | part :: parts => String c part :: parts
           | [] => [String c EmptyString]
           end
  end.

(** Where the checks of an identifier live. *)
Record place := mk_place {
  slug : string;
  org : string;
  repo : string;
  checks_root : string;
  check_dir : string
}.

Inductive located :=
| found (p : place)
| InternalError (msg : string).

(** The first branch of [import_checks] ([not config.args.offline]), up to
    the git command: the identifier [path/to/check@org/repo] is taken
    apart, and the directories are built under [checkdir]. *)
Definition locate (checkdir identifier : string) : located :=
  let '(slug, repo) :=
    match split "@" identifier with
    | [slug; repo] => (slug, repo)
    | _ => (identifier, "cs50/checks")
    end in
  match split "/" repo with
  | [org; repo] =>
      let checks_root := Str.path_join (Str.path_join checkdir org) repo in
      found (mk_place slug org repo checks_root
               (Str.path_join (Str.path_join checks_root (Str.replace "/" "/" slug))
                              "check50"))
  | _ =>
      InternalError ("expected repository to be of the form username/repository, but got "
                       +:+ Str.quote +:+ repo +:+ Str.quote)
  end.

(** The git command that updates the checks: pull when [checks_root]
    exists, clone otherwise. *)
Definition git_command (root_exists : bool) (p : place) : list string :=
  if root_exists
  then ["git"; "-C"; checks_root p; "pull"; "origin"; "master"]
  else ["git"; "clone"; "https://github.com/" +:+ org p +:+ "/" +:+ repo p; checks_root p].

(** The other branch ([config.args.offline]): [slug] and [checks_root] are
    [checkdir/identifier], and [check_dir] is joined from [checks_root],
    [slug] and [check50]. *)
Definition locate_offline (checkdir identifier : string) : string * string :=
  let slug := Str.path_join checkdir identifier in
  let checks_root := slug in
  (checks_root,
   Str.path_join (Str.path_join checks_root (Str.replace "/" "/" slug)) "check50").

End Identifier.

(** ** Results and their printing *)

Module Report.

(** An entry of [TestResult.results], without the test object itself. *)
Record entry := mk {
  description : option string;
  helpers : option string;
  log : list string;
  rationale : option message;
  status : verdict
}.

(** [addSuccess(test)]; [description] is [test.shortDescription()]. *)
Definition addSuccess (description : option string) (test : Checks.t)
           (results : list entry) : list entry :=
  results ++ [mk description (Checks.helpers test) (Checks.log test)
                 (Checks.rationale test) (Checks.result test)].

(** A call of [cprint(text, color)] or of [print(text)]. *)
Inductive printed :=
| cprint (text color : string)
| print (text : string).

(** ["{}".format(x)] for a description and for a rationale. *)
Definition format_description (d : option string) : string :=
  match d with Some s => s | None => "None" end.
Definition format_message `{Python} (m : message) : string :=
  match m with
  | msg_str s => s
  | msg_mismatch m => Mismatch.str m
  end.

(** What [print_results] prints for one result. *)
Definition print_result `{Python} (with_log : bool) (r : entry) : list printed :=
  match status r with
  | PASS => [cprint (":) " +:+ format_description (description r)) "green"]
  | FAIL =>
      [cprint (":( " +:+ format_description (description r)) "red"]
        ++ match rationale r with
           | Some m => [cprint ("    " +:+ format_message m) "red"]
           | None => []
           end
        ++ match helpers r with
           | Some h => [cprint ("    " +:+ h) "red"]
           | None => []
           end
  | SKIP =>
      [cprint (":| " +:+ format_description (description r)) "yellow";
       cprint ("    " +:+ match rationale r with
                           | Some m => if message_truthy m then format_message m
                                       else "check skipped"
                           | None => "check skipped"
                           end) "yellow"]
  end
  ++ (if with_log then map (fun line => print ("    " +:+ line)) (log r) else []).

(** [print_results(results, log)] *)
Definition print_results `{Python} (results : list entry) (with_log : bool) : list printed :=
  concat (map (print_result with_log) results).

End Report.

(** ** More examples *)

Module Examples2.

(** [shlex.quote] on the words of the examples, which need no quoting. *)
Definition quote (s : string) : string := s.

(** What pexpect starts for a command line: a [diff] of two equal files,
    which exits with status 0 without output. *)
Definition launch (cmd : string) : pexpect.spawn :=
  Examples.process (fun _ => false) [] (Some 0%Z) None.

(** A process that prints a greeting and exits with status 0. *)
Definition greeter : Child.t :=
  Child.init [] (Examples.process (fun t => (t <? 1)%nat)
                   [pexpect.data "Hello"; pexpect.EOF] (Some 0%Z) None).

(** A process that prompts, and one that closes its output at once. *)
Definition prompting : Child.t :=
  Child.init [] (pexpect.mk 0 (fun _ => true) [] [pexpect.matched] [] false None None).
Definition mute : Child.t :=
  Child.init [] (pexpect.mk 0 (fun _ => true) [] [pexpect.expect_EOF] [] false None None).

(** A body that raises what is not an [Error]. *)
Definition crashes : body := fun w => Raise TypeError w.

(** A body under valgrind that does nothing. *)
Definition idle : vbody := fun v => Return tt v.

End Examples2.


(* ===================================================================== *)
(** * Properties *)
(* ===================================================================== *)

(** ** Strings and paths on examples *)

Example replace_crlf_example :
  Str.replace Str.crlf Str.newline
    ("a" +:+ Str.crlf +:+ "b" +:+ Str.crlf +:+ String Str.CR "c")
  = "a" +:+ Str.newline +:+ "b" +:+ Str.newline +:+ String Str.CR "c".
Proof. reflexivity. Qed.

Example lstrip_example :
  Str.lstrip Str.newline (Str.newline +:+ Str.newline +:+ "out" +:+ Str.newline)
  = "out" +:+ Str.newline.
Proof. reflexivity. Qed.

Example dirname_examples :
  Str.dirname "/tmp/check50/leaks/hello" = "/tmp/check50/leaks"
  /\ Str.dirname "/hello" = "/"
  /\ Str.dirname "hello" = EmptyString
  /\ Str.dirname "/tmp/check50/leaks/" = "/tmp/check50/leaks"
  /\ Str.dirname "leaks//hello" = "leaks".
Proof. repeat split. Qed.

Example path_join_examples :
  Str.path_join "/tmp/check50" "_" = "/tmp/check50/_"
  /\ Str.path_join "/tmp/check50/" "exists" = "/tmp/check50/exists"
  /\ Str.path_join "/tmp/check50" "/etc" = "/etc".
Proof. repeat split. Qed.

Example slice_examples :
  Str.slice 1 (-1) "'Hello'" = "Hello"
  /\ Str.slice 0 15 "0123456789abcdefgh" = "0123456789abcde"
  /\ Str.slice 1 (-1) "x" = EmptyString.
Proof. repeat split. Qed.

(** ** The failed latch *)

Section Latch.

Implicit Types (c : Child.t) (m : message).

Lemma fail_sets_latch m c : Child.failed (Child.fail m c) = true.
Proof. unfold Child.fail. simpl. now destruct (negb _). Qed.

Lemma fail_keeps_recorded m c :
  message_truthy (Payload.error_message (Child.payload c)) = true ->
  Child.payload (Child.fail m c) = Child.payload c.
Proof. intros Hm. unfold Child.fail. simpl. now rewrite Hm. Qed.

Lemma fail_records_first m c :
  message_truthy (Payload.error_message (Child.payload c)) = false ->
  Payload.error_message (Child.payload (Child.fail m c)) = m.
Proof. intros Hm. unfold Child.fail. simpl. now rewrite Hm. Qed.

Lemma fail_touches_nothing_else m c :
  Child.test_log (Child.fail m c) = Child.test_log c
  /\ Child.child (Child.fail m c) = Child.child c
  /\ Payload.output (Child.payload (Child.fail m c)) = Payload.output (Child.payload c)
  /\ Payload.exit (Child.payload (Child.fail m c)) = Payload.exit (Child.payload c)
  /\ Payload.help_message (Child.payload (Child.fail m c))
     = Payload.help_message (Child.payload c).
Proof. unfold Child.fail. simpl. now destruct (negb _). Qed.

(** [wait] has no guard, but it never clears the latch. *)
Lemma wait_keeps_latch timeout c :
  Child.failed c = true -> Child.failed (state (Child.wait timeout c)) = true.
Proof.
  intros Hf. unfold Child.wait.
  destruct (Child.poll _ _ _) as [[how p] out].
  destruct how; simpl; auto using fail_sets_latch.
  destruct (pexpect.closed p); simpl; auto.
  destruct (Child.drain _ _) as [[out'|] rest]; simpl; auto.
  case_bool_decide; simpl; auto using fail_sets_latch.
Qed.

(** Nor does it replace a message that is recorded. *)
Lemma wait_keeps_recorded timeout c :
  message_truthy (Payload.error_message (Child.payload c)) = true ->
  Payload.error_message (Child.payload (state (Child.wait timeout c)))
  = Payload.error_message (Child.payload c).
Proof.
  intros Hm. unfold Child.wait.
  destruct (Child.poll _ _ _) as [[how p] out].
  destruct how; simpl; auto.
  - destruct (pexpect.closed p); simpl; auto.
    destruct (Child.drain _ _) as [[out'|] rest]; simpl; auto.
    case_bool_decide; simpl; auto.
    now rewrite fail_keeps_recorded.
  - now rewrite fail_keeps_recorded.
Qed.

End Latch.

(** C1 (as amended).  On a Child whose latch is set, each of [stdin],
    [stdout], [reject], [exit], [match] and [help] returns the Child as it
    is: same log, same process, same payload, same status.  [wait], the
    polling primitive under them, carries no guard and still runs, but
    neither [wait] nor [fail] ever clears the latch, and a message that has
    been recorded (a non-empty one) is never replaced by a later [fail],
    whether called directly or by [wait]. *)
Theorem failed_child_is_inert `{Python} (c : Child.t) :
  Child.failed c = true ->
  (forall line prompt timeout, Child.stdin line prompt timeout c = Return Child.self c)
  /\ (forall output str_output timeout,
        Child.stdout output str_output timeout c = Return Child.self c)
  /\ (forall timeout, Child.reject timeout c = Return Child.self c)
  /\ (forall code timeout, Child.exit code timeout c = Return Child.self c)
  /\ (forall output str_output, Child.match_ output str_output c = Return Child.self c)
  /\ (forall message, Child.help message c = Return Child.self c)
  /\ (forall timeout, Child.failed (state (Child.wait timeout c)) = true)
  /\ (forall m, Child.failed (Child.fail m c) = true)
  /\ (message_truthy (Payload.error_message (Child.payload c)) = true ->
      (forall m, Payload.error_message (Child.payload (Child.fail m c))
                 = Payload.error_message (Child.payload c))
      /\ (forall timeout,
            Payload.error_message (Child.payload (state (Child.wait timeout c)))
            = Payload.error_message (Child.payload c))).
Proof.
  intros Hf.
  repeat split; intros;
    try (unfold Child.stdin, Child.stdout, Child.reject, Child.exit, Child.match_, Child.help;
         rewrite Hf; reflexivity).
  - now apply wait_keeps_latch.
  - apply fail_sets_latch.
  - now rewrite fail_keeps_recorded.
  - now apply wait_keeps_recorded.
Qed.

(** The theorem at the child that failed on a missing prompt. *)
Lemma failed_child_is_inert_broken :
  Child.failed Examples.broken = true
  /\ Child.exit (Some 0%Z) 5 Examples.broken = Return Child.self Examples.broken
  /\ @Child.stdout Ascii_python.python (Some (v_str "late")) None 3 Examples.broken
     = Return Child.self Examples.broken.
Proof.
  pose proof (@failed_child_is_inert Ascii_python.python Examples.broken eq_refl)
    as (_ & Hstdout & _ & Hexit & _).
  split; [reflexivity | split; [apply Hexit | apply Hstdout]].
Defined.

(** C1, as stated, fails for [wait]: on the failed child [broken], whose
    process left a chunk in the pipe, [wait] reads the chunk into
    [payload.output], records the exit status and closes the process. *)
Lemma wait_not_inert_when_failed :
  Child.failed Examples.broken = true
  /\ Child.wait 1 Examples.broken <> Return Child.self Examples.broken
  /\ Payload.output (Child.payload Examples.broken) = EmptyString
  /\ Payload.output (Child.payload (state (Child.wait 1 Examples.broken))) = "late"
  /\ Payload.exit (Child.payload Examples.broken) = None
  /\ Payload.exit (Child.payload (state (Child.wait 1 Examples.broken))) = Some 0%Z.
Proof.
  repeat split; try reflexivity.
  intros Heq. apply (f_equal (fun r => Payload.output (Child.payload (state r)))) in Heq.
  vm_compute in Heq. discriminate Heq.
Qed.

(** ** The polling loop *)

Section Polling.

Implicit Types (p : pexpect.spawn) (out : list string).

(** The loop reads the clock and the pipe; the rest of the process is as
    it was. *)
Lemma poll_frame turns p out :
  let p' := snd (fst (Child.poll turns p out)) in
  pexpect.alive p' = pexpect.alive p
  /\ pexpect.prompts p' = pexpect.prompts p
  /\ pexpect.written p' = pexpect.written p
  /\ pexpect.closed p' = pexpect.closed p
  /\ pexpect.exitstatus p' = pexpect.exitstatus p
  /\ pexpect.signalstatus p' = pexpect.signalstatus p.
Proof.
  revert p out. induction turns as [|n IH]; intros p out; simpl; [tauto|].
  destruct (pexpect.isalive p); simpl; [|tauto].
  unfold pexpect.read_nonblocking.
  destruct (pexpect.closed p) eqn:Hclosed; simpl; [rewrite Hclosed; tauto|].
  destruct (pexpect.pipe p) as [|[bytes| | |] rest]; simpl; rewrite ?Hclosed; try tauto.
  - pose proof (IH (pexpect.tick p) out) as Hp.
    simpl in Hp. rewrite Hclosed in Hp. exact Hp.
  - pose proof (IH (pexpect.tick (pexpect.set_pipe rest p)) (out ++ [bytes])%list) as Hp.
    simpl in Hp. rewrite Hclosed in Hp. exact Hp.
  - pose proof (IH (pexpect.tick (pexpect.set_pipe rest p)) out) as Hp.
    simpl in Hp. rewrite Hclosed in Hp. exact Hp.
Qed.

(** The loop reaches its [else] clause exactly when the process holds out
    at every turn; what it writes plays no part. *)
Lemma poll_else_iff turns p out :
  fst (fst (Child.poll turns p out)) = Child.poll_else
  <-> forall i, i < turns -> holds_out p i.
Proof.
  revert p out. induction turns as [|n IH]; intros p out; simpl.
  - split; [intros _ i Hi; lia | reflexivity].
  - unfold pexpect.isalive, pexpect.read_nonblocking.
    destruct (pexpect.closed p) eqn:Hclosed; simpl.
    { split; [discriminate|]. intros Hall.
      destruct (Hall 0) as (Hc & _); [lia|]. congruence. }
    destruct (pexpect.alive p (pexpect.now p)) eqn:Halive; simpl.
    2:{ split; [discriminate|]. intros Hall.
        destruct (Hall 0) as (_ & Ha & _); [lia|].
        rewrite Nat.add_0_r in Ha. congruence. }
    destruct (pexpect.pipe p) as [|r rest] eqn:Hpipe.
    + rewrite IH. split.
      * intros Hall [|i] Hi.
        -- unfold holds_out, reading. rewrite Hpipe, Nat.add_0_r. simpl.
           repeat split; [exact Hclosed | exact Halive | discriminate | discriminate].
        -- destruct (Hall i) as (Hc & Ha & Hr1 & Hr2); [lia|].
           unfold holds_out, reading in *. simpl in *. rewrite Hpipe in *.
           rewrite Nat.add_succ_r. repeat split; auto.
      * intros Hall i Hi. destruct (Hall (S i)) as (Hc & Ha & Hr1 & Hr2); [lia|].
        unfold holds_out, reading in *. simpl in *. rewrite Hpipe in *.
        rewrite Nat.add_succ_r in Ha. repeat split; auto.
        all: destruct i; simpl; discriminate.
    + assert (Hstep : forall out',
                 fst (fst (Child.poll n (pexpect.tick (pexpect.set_pipe rest p)) out'))
                 = Child.poll_else
                 <-> forall i, i < n -> holds_out p (S i)).
      { intros out'. rewrite IH. unfold holds_out, reading. simpl. rewrite Hpipe.
        split; intros Hall i Hi; specialize (Hall i Hi);
          rewrite Nat.add_succ_r in *; exact Hall. }
      assert (Hhead : holds_out p 0 <-> r <> pexpect.EOF /\ r <> pexpect.UnicodeDecodeError).
      { unfold holds_out, reading. rewrite Hpipe, Nat.add_0_r, Hclosed. simpl. tauto. }
      destruct r as [bytes| | |]; simpl.
      * rewrite Hstep. split.
        -- intros Hall [|i] Hi; [apply Hhead; split; discriminate | apply Hall; lia].
        -- intros Hall i Hi. apply Hall. lia.
      * rewrite Hstep. split.
        -- intros Hall [|i] Hi; [apply Hhead; split; discriminate | apply Hall; lia].
        -- intros Hall i Hi. apply Hall. lia.
      * split; [discriminate|]. intros Hall.
        destruct (proj1 Hhead (Hall 0 ltac:(lia))) as [Hne _]. now contradiction Hne.
      * split; [discriminate|]. intros Hall.
        destruct (proj1 Hhead (Hall 0 ltac:(lia))) as [_ Hne]. now contradiction Hne.
Qed.

(** The clock when the loop ends: past the deadline in the [else] clause,
    within it otherwise. *)
Lemma poll_clock turns p out :
  let '(how, p', _) := Child.poll turns p out in
  (how = Child.poll_else -> pexpect.now p' = pexpect.now p + turns)
  /\ (how <> Child.poll_else -> pexpect.now p' < pexpect.now p + turns).
Proof.
  revert p out. induction turns as [|n IH]; intros p out; simpl.
  - split; [intros _; lia | intros Hne; now contradiction Hne].
  - destruct (pexpect.isalive p); simpl.
    2:{ split; [discriminate | intros _; lia]. }
    unfold pexpect.read_nonblocking.
    destruct (pexpect.closed p); simpl.
    { split; [discriminate | intros _; lia]. }
    destruct (pexpect.pipe p) as [|[bytes| | |] rest]; simpl.
    + specialize (IH (pexpect.tick p) out).
      destruct (Child.poll n (pexpect.tick p) out) as [[how p'] out'].
      simpl in IH. destruct IH as [IH1 IH2].
      split; intros Hh; [rewrite (IH1 Hh) | specialize (IH2 Hh)]; lia.
    + specialize (IH (pexpect.tick (pexpect.set_pipe rest p)) (out ++ [bytes])).
      destruct (Child.poll n _ _) as [[how p'] out'].
      simpl in IH. destruct IH as [IH1 IH2].
      split; intros Hh; [rewrite (IH1 Hh) | specialize (IH2 Hh)]; lia.
    + specialize (IH (pexpect.tick (pexpect.set_pipe rest p)) out).
      destruct (Child.poll n _ _) as [[how p'] out'].
      simpl in IH. destruct IH as [IH1 IH2].
      split; intros Hh; [rewrite (IH1 Hh) | specialize (IH2 Hh)]; lia.
    + split; [discriminate | intros _; lia].
    + split; [discriminate | intros _; lia].
Qed.

(** The draining loop on an open process, one [read_nonblocking] at a
    time. *)
Lemma drain_step p out :
  pexpect.closed p = false ->
  match pexpect.read_nonblocking p with
  | Some (pexpect.data bytes, p') =>
      Child.drain (pexpect.pipe p) out = Child.drain (pexpect.pipe p') (out ++ [bytes])
  | Some (pexpect.TIMEOUT, p') | Some (pexpect.EOF, p') =>
      Child.drain (pexpect.pipe p) out = (Some out, pexpect.pipe p')
  | Some (pexpect.UnicodeDecodeError, p') =>
      Child.drain (pexpect.pipe p) out = (None, pexpect.pipe p')
  | None => False
  end.
Proof.
  intros Hclosed. unfold pexpect.read_nonblocking. rewrite Hclosed.
  destruct (pexpect.pipe p) as [|[bytes| | |] rest] eqn:Hpipe; simpl; try reflexivity.
  now rewrite Hpipe.
Qed.

(** The polling loop never reads from a closed process: it finds it gone
    first. *)
Lemma poll_not_closed turns p out :
  fst (fst (Child.poll turns p out)) <> Child.poll_closed.
Proof.
  revert p out. induction turns as [|n IH]; intros p out; simpl; [discriminate|].
  unfold pexpect.isalive, pexpect.read_nonblocking.
  destruct (pexpect.closed p); simpl; [discriminate|].
  destruct (pexpect.alive p (pexpect.now p)); simpl; [|discriminate].
  destruct (pexpect.pipe p) as [|[bytes| | |] rest]; simpl; try discriminate; apply IH.
Qed.


End Polling.

(** ** wait *)

Section Wait.

Implicit Types (c : Child.t) (p : pexpect.spawn).

(** [wait] by cases on how the polling loop ends. *)
Lemma wait_deadline timeout c p out :
  Child.poll timeout (Child.child c) [] = (Child.poll_else, p, out) ->
  Child.wait timeout c
  = Raise (Error (Some (msg_str "timed out while waiting for program to exit"))
                 None FAIL (Some timeout))
          (Child.set_child p c).
Proof. intros Hp. unfold Child.wait. now rewrite Hp. Qed.

Lemma wait_collected timeout c p out out' rest :
  pexpect.closed (Child.child c) = false ->
  Child.poll timeout (Child.child c) [] = (Child.poll_break, p, out) ->
  Child.drain (pexpect.pipe p) out = (Some out', rest) ->
  let c1 := Child.kill
              (Child.set_payload (Payload.set_output (Child.normalize out') (Child.payload c))
                 (Child.set_child (pexpect.set_pipe rest p) c)) in
  Child.wait timeout c
  = if bool_decide (pexpect.signalstatus (Child.child c) = Some SIGSEGV)
    then Return Child.self
           (Child.fail (msg_str "failed to execute program due to segmentation fault") c1)
    else Return Child.self
           (Child.set_payload
              (Payload.set_exit (pexpect.exitstatus (Child.child c)) (Child.payload c1)) c1).
Proof.
  intros Hclosed Hp Hd. unfold Child.wait.
  pose proof (poll_frame timeout (Child.child c) []) as Hfr.
  rewrite Hp in Hfr. simpl in Hfr. destruct Hfr as (_ & _ & _ & Hc & He & Hs).
  rewrite Hp, Hc, Hclosed, Hd. simpl.
  now rewrite He, Hs.
Qed.


(** [wait] returns [self] whenever it returns. *)
Lemma wait_returns_self timeout c v c' :
  Child.wait timeout c = Return v c' -> v = Child.self.
Proof.
  unfold Child.wait.
  destruct (Child.poll _ _ _) as [[how p] out].
  destruct how; try discriminate.
  - destruct (pexpect.closed p); try discriminate.
    destruct (Child.drain _ _) as [[out'|] rest]; try discriminate.
    simpl. case_bool_decide; intros [= <- _]; reflexivity.
  - intros [= <- _]. reflexivity.
Qed.

(** When [wait] returns, it has set the latch or left the message alone. *)
Lemma wait_message timeout c v c' :
  Child.wait timeout c = Return v c' ->
  Child.failed c' = false ->
  Payload.error_message (Child.payload c') = Payload.error_message (Child.payload c).
Proof.
  unfold Child.wait.
  destruct (Child.poll _ _ _) as [[how p] out].
  destruct how; try discriminate.
  - destruct (pexpect.closed p); try discriminate.
    destruct (Child.drain _ _) as [[out'|] rest]; try discriminate.
    simpl. case_bool_decide; intros [= _ <-]; intros Hf.
    + now rewrite fail_sets_latch in Hf.
    + reflexivity.
  - intros [= _ <-] Hf. now rewrite fail_sets_latch in Hf.
Qed.

(** The ways [wait] raises: the timeout [Error], from the [else] clause of
    the polling loop, and, once the polling loop has ended by [break], a
    [UnicodeDecodeError] in the draining loop or, on a closed process, the
    [ValueError] of its first read.  None touches the payload, the status
    or the log. *)
Lemma wait_raises timeout c e c' :
  Child.wait timeout c = Raise e c' ->
  Child.status c' = Child.status c
  /\ Child.payload c' = Child.payload c
  /\ Child.test_log c' = Child.test_log c
  /\ (e = Error (Some (msg_str "timed out while waiting for program to exit"))
                None FAIL (Some timeout)
      /\ fst (fst (Child.poll timeout (Child.child c) [])) = Child.poll_else
      \/ e = UnicodeDecodeError
         /\ pexpect.closed (Child.child c) = false
         /\ fst (fst (Child.poll timeout (Child.child c) [])) = Child.poll_break
      \/ e = ValueError
         /\ pexpect.closed (Child.child c) = true
         /\ fst (fst (Child.poll timeout (Child.child c) [])) = Child.poll_break).
Proof.
  unfold Child.wait.
  pose proof (poll_frame timeout (Child.child c) []) as Hfr.
  pose proof (poll_not_closed timeout (Child.child c) []) as Hnc.
  destruct (Child.poll _ _ _) as [[how p] out].
  simpl in Hfr, Hnc. destruct Hfr as (_ & _ & _ & Hc & _).
  destruct how; try discriminate.
  - destruct (pexpect.closed p) eqn:Hclosed.
    + intros [= <- <-]. simpl. rewrite <- Hc. tauto.
    + destruct (Child.drain _ _) as [[out'|] rest].
      * simpl. case_bool_decide; discriminate.
      * intros [= <- <-]. simpl. rewrite <- Hc. tauto.
  - intros [= <- <-]. simpl. tauto.
  - now contradiction Hnc.
Qed.


End Wait.

(** ** reject *)




(** C6.  On an open process, whenever the polling loop of [wait] ends
    before the deadline because the process is gone (or its pipe is at EOF)
    and what is left in the pipe has been read,
    [wait] returns with the output stored and the process closed, and then:
    if the process died of SIGSEGV, the latch is set, no exit status is
    recorded in the payload, and the message is "failed to execute program
    due to segmentation fault" (unless an earlier failure recorded one);
    otherwise the exit status of the process is recorded in the payload and
    neither the latch nor the message changes. *)
Theorem wait_reports_segfault (timeout : nat) (c : Child.t)
        (p : pexpect.spawn) (out out' : list string) (rest : list pexpect.read) :
  pexpect.closed (Child.child c) = false ->
  Child.poll timeout (Child.child c) [] = (Child.poll_break, p, out) ->
  Child.drain (pexpect.pipe p) out = (Some out', rest) ->
  exists c',
    Child.wait timeout c = Return Child.self c'
    /\ Payload.output (Child.payload c') = Child.normalize out'
    /\ pexpect.closed (Child.child c') = true
    /\ (pexpect.signalstatus (Child.child c) = Some SIGSEGV ->
        Child.failed c' = true
        /\ Payload.exit (Child.payload c') = Payload.exit (Child.payload c)
        /\ (message_truthy (Payload.error_message (Child.payload c)) = false ->
            Payload.error_message (Child.payload c')
            = msg_str "failed to execute program due to segmentation fault"))
    /\ (pexpect.signalstatus (Child.child c) <> Some SIGSEGV ->
        Payload.exit (Child.payload c') = pexpect.exitstatus (Child.child c)
        /\ Child.failed c' = Child.failed c
        /\ Payload.error_message (Child.payload c')
           = Payload.error_message (Child.payload c)).
Proof.
  intros Hopen Hp Hd.
  rewrite (wait_collected timeout c p out out' rest Hopen Hp Hd).
  case_bool_decide as Hsig; eexists; (split; [reflexivity|]).
  - pose proof (fail_touches_nothing_else
                  (msg_str "failed to execute program due to segmentation fault")
                  (Child.kill
                     (Child.set_payload
                        (Payload.set_output (Child.normalize out') (Child.payload c))
                        (Child.set_child (pexpect.set_pipe rest p) c))))
      as (_ & Hchild & Hout & Hexit & _).
    rewrite Hchild, Hout. split; [reflexivity|]. split; [reflexivity|]. split.
    + intros _. split; [apply fail_sets_latch|]. split; [now rewrite Hexit|].
      intros Hm. now apply fail_records_first.
    + intros Hne. now contradiction Hne.
  - simpl. split; [reflexivity|]. split; [reflexivity|]. split.
    + intros Hs. now contradiction Hsig.
    + intros _. repeat split.
Qed.

(** The theorem at a process that writes a line and then dies of a
    segmentation fault during the second turn of the loop. *)
Lemma wait_reports_segfault_segfaulter :
  Child.failed (state (Child.wait 3 Examples.segfaulter)) = true
  /\ Payload.exit (Child.payload (state (Child.wait 3 Examples.segfaulter))) = None
  /\ Payload.error_message (Child.payload (state (Child.wait 3 Examples.segfaulter)))
     = msg_str "failed to execute program due to segmentation fault".
Proof.
  destruct (wait_reports_segfault 3 Examples.segfaulter
              (pexpect.tick (pexpect.set_pipe [] (Child.child Examples.segfaulter)))
              ["working"] ["working"] [] eq_refl eq_refl eq_refl)
    as (c' & Hw & _ & _ & Hseg & _).
  rewrite Hw. simpl.
  destruct (Hseg eq_refl) as (Hf & He & Hm).
  split; [exact Hf | split; [exact He | exact (Hm eq_refl)]].
Defined.

(** ** stdout and match on a [File] *)

(** A literal expectation succeeds exactly when the output is the contents
    of the file, byte for byte. *)
Lemma match_literal `{Python} (f : File) (str_output : option pyval) (c : Child.t) :
  Child.failed c = false ->
  succeeds (Child.match_ (v_File f) str_output c)
  <-> contents f = Payload.output (Child.payload c).
Proof.
  intros Hf. unfold Child.match_. rewrite Hf. simpl.
  destruct (String.eqb_spec (contents f) (Payload.output (Child.payload c))) as [Heq|Hne].
  - split; [intros _; exact Heq|]. intros _. eexists. split; [reflexivity|]. exact Hf.
  - split; [|intros Heq; now contradiction Hne].
    intros (c' & [= <-] & Hf'). rewrite fail_sets_latch in Hf'. discriminate.
Qed.

(** A line that ends in CRLF comes out ending in LF. *)
Lemma replace_crlf_line (a b : string) :
  Str.mem Str.CR a = false ->
  Str.replace Str.crlf Str.newline (a +:+ Str.crlf +:+ b)
  = a +:+ Str.newline +:+ Str.replace Str.crlf Str.newline b.
Proof.
  unfold Str.replace. induction a as [|ch a IH]; intros Hcr.
  - change (EmptyString +:+ Str.crlf +:+ b) with (String Str.CR (String Str.LF b)).
    cbn [Str.replace_from].
    replace (String.prefix Str.crlf (String Str.CR (String Str.LF b))) with true
      by (now destruct b).
    reflexivity.
  - simpl in Hcr. apply orb_false_elim in Hcr as [Hch Ha].
    change (String ch a +:+ Str.crlf +:+ b) with (String ch (a +:+ Str.crlf +:+ b)).
    cbn [Str.replace_from].
    replace (String.prefix Str.crlf (String ch (a +:+ Str.crlf +:+ b))) with false.
    + rewrite (IH Ha). reflexivity.
    + unfold Str.crlf. cbn [String.prefix].
      destruct (ascii_dec Str.CR ch) as [<-|Hne]; [|reflexivity].
      vm_compute in Hch. discriminate.
Qed.

(** What [lstrip] returns does not start with a stripped character. *)
Lemma lstrip_no_leading (s : string) :
  Str.startswith (Str.lstrip Str.newline s) Str.newline = false.
Proof.
  induction s as [|ch s IH]; [reflexivity|].
  cbn [Str.lstrip]. destruct (Str.mem ch Str.newline) eqn:Hmem; [exact IH|].
  unfold Str.startswith, Str.newline. cbn [String.prefix].
  destruct (ascii_dec Str.LF ch) as [<-|Hne]; [|reflexivity].
  vm_compute in Hmem. discriminate.
Qed.

(** C7.  The buffer [wait] stores, when it has read an open process that
    went away before the deadline, is the chunks read, joined, with each CRLF
    replaced by LF (a line that ends in CRLF comes out ending in LF) and the
    leading newlines stripped (what is stored does not start with one).  A
    literal expectation (a [File]) succeeds exactly when its contents equal
    that buffer.  So when the process writes [a\r\nb], in whatever chunks,
    [stdout] with a file that holds [a\nb] succeeds. *)
Theorem literal_match_is_crlf_normalized `{Python} :
  (forall timeout c p out out' rest,
      pexpect.closed (Child.child c) = false ->
      Child.poll timeout (Child.child c) [] = (Child.poll_break, p, out) ->
      Child.drain (pexpect.pipe p) out = (Some out', rest) ->
      Payload.output (Child.payload (state (Child.wait timeout c)))
      = Str.lstrip Str.newline
          (Str.replace Str.crlf Str.newline (Str.join EmptyString out')))
  /\ (forall a b, Str.mem Str.CR a = false ->
        Str.replace Str.crlf Str.newline (a +:+ Str.crlf +:+ b)
        = a +:+ Str.newline +:+ Str.replace Str.crlf Str.newline b)
  /\ (forall out, Str.startswith (Child.normalize out) Str.newline = false)
  /\ (forall f str_output c,
        Child.failed c = false ->
        succeeds (Child.match_ (v_File f) str_output c)
        <-> contents f = Payload.output (Child.payload c))
  /\ (forall timeout c p out out' rest f str_output,
        Child.failed c = false ->
        pexpect.closed (Child.child c) = false ->
        Child.poll timeout (Child.child c) [] = (Child.poll_break, p, out) ->
        Child.drain (pexpect.pipe p) out = (Some out', rest) ->
        pexpect.signalstatus (Child.child c) <> Some SIGSEGV ->
        Str.join EmptyString out' = "a" +:+ Str.crlf +:+ "b" ->
        contents f = "a" +:+ Str.newline +:+ "b" ->
        succeeds (Child.stdout (Some (v_File f)) str_output timeout c)).
Proof.
  split; [|split; [|split; [|split]]].
  - intros timeout c p out out' rest Hopen Hp Hd.
    rewrite (wait_collected timeout c p out out' rest Hopen Hp Hd).
    case_bool_decide; simpl; [|reflexivity].
    now rewrite (proj1 (proj2 (proj2 (fail_touches_nothing_else _ _)))).
  - exact replace_crlf_line.
  - intros out. apply lstrip_no_leading.
  - intros f str_output c Hf. now apply match_literal.
  - intros timeout c p out out' rest f str_output Hf Hopen Hp Hd Hsig Hjoin Hfile.
    unfold Child.stdout. rewrite Hf.
    rewrite (wait_collected timeout c p out out' rest Hopen Hp Hd).
    rewrite bool_decide_eq_false_2 by exact Hsig.
    cbn [truthy]. apply match_literal; [exact Hf|].
    simpl. unfold Child.normalize. rewrite Hjoin, Hfile. reflexivity.
Qed.

(** The theorem at a process that writes [a\r\nb] in two chunks, the CRLF
    split between them, and exits. *)
Lemma literal_match_crlf_writer :
  succeeds (@Child.stdout Ascii_python.python
              (Some (v_File Examples.expected_txt)) None 3 Examples.crlf_writer).
Proof.
  refine (proj2 (proj2 (proj2 (proj2 (@literal_match_is_crlf_normalized Ascii_python.python))))
            3 Examples.crlf_writer
            (pexpect.tick (pexpect.set_pipe [pexpect.EOF]
               (pexpect.tick (pexpect.set_pipe
                                [pexpect.data (Str.newline +:+ "b"); pexpect.EOF]
                                (Child.child Examples.crlf_writer)))))
            ["a" +:+ String Str.CR EmptyString; Str.newline +:+ "b"]
            ["a" +:+ String Str.CR EmptyString; Str.newline +:+ "b"]
            [] Examples.expected_txt None eq_refl eq_refl eq_refl eq_refl _ eq_refl eq_refl).
  discriminate.
Defined.

(** ** exit *)

(** [exit] on a Child that has not failed, once [wait] has returned: without
    a code it returns the exit status that is in the payload; with a code it
    logs the check and returns [self] when the status is that code, and
    otherwise raises [AttributeError] from [self.status.exit]. *)
Lemma exit_after_wait (code : option Z) (timeout : nat) (c : Child.t) v c' :
  Child.failed c = false ->
  Child.wait timeout c = Return v c' ->
  Child.exit code timeout c
  = match code with
    | None => Return (Child.exit_status (Payload.exit (Child.payload c'))) c'
    | Some k =>
        let c'' := Child.log_append
                     ("checking that program exited with status " +:+ pretty k +:+ "...") c' in
        if bool_decide (Payload.exit (Child.payload c') = Some k)
        then Return Child.self c'' else Raise AttributeError c''
    end.
Proof. intros Hf Hw. unfold Child.exit. rewrite Hf, Hw. reflexivity. Qed.

(** [exit()] returns the raw exit code of a process that went away without
    a segmentation fault. *)
Lemma exit_without_code (timeout : nat) (c : Child.t)
      (p : pexpect.spawn) (out out' : list string) (rest : list pexpect.read) :
  Child.failed c = false ->
  pexpect.closed (Child.child c) = false ->
  Child.poll timeout (Child.child c) [] = (Child.poll_break, p, out) ->
  Child.drain (pexpect.pipe p) out = (Some out', rest) ->
  pexpect.signalstatus (Child.child c) <> Some SIGSEGV ->
  exists c', Child.exit None timeout c
             = Return (Child.exit_status (pexpect.exitstatus (Child.child c))) c'.
Proof.
  intros Hf Hopen Hp Hd Hsig.
  pose proof (wait_collected timeout c p out out' rest Hopen Hp Hd) as Hw. simpl in Hw.
  rewrite bool_decide_eq_false_2 in Hw by exact Hsig.
  eexists. rewrite (exit_after_wait None timeout c _ _ Hf Hw). reflexivity.
Qed.

(** C3, at a process that exits with status 1: [exit(0)] does not fail the
    Child.  Building the message raises [AttributeError]; the latch stays
    unset and no message is recorded, although the payload holds the exit
    status 1. *)
Theorem exit_wrong_code_raises_AttributeError :
  Child.failed Examples.exits_1 = false
  /\ pexpect.exitstatus (Child.child Examples.exits_1) = Some 1%Z
  /\ exists c',
      Child.exit (Some 0%Z) 5 Examples.exits_1 = Raise AttributeError c'
      /\ Child.failed c' = false
      /\ Payload.error_message (Child.payload c') = msg_str EmptyString
      /\ Payload.exit (Child.payload c') = Some 1%Z
      /\ Child.test_log c' = ["checking that program exited with status 0..."].
Proof.
  split; [reflexivity|]. split; [reflexivity|].
  eexists. split; [vm_compute; reflexivity|]. repeat split.
Qed.

(** ** help *)

(** C4 (as amended).  [help(message)] stores the hint in the payload of a
    Child that has not failed, and changes nothing else; on a Child that has
    failed it is a no-op, so that the hint in the payload stays the one that
    was there when the Child failed. *)
Theorem help_records_unless_failed (message : string) (c : Child.t) :
  (Child.failed c = false ->
   exists c',
     Child.help message c = Return Child.self c'
     /\ Payload.help_message (Child.payload c') = message
     /\ Payload.output (Child.payload c') = Payload.output (Child.payload c)
     /\ Payload.exit (Child.payload c') = Payload.exit (Child.payload c)
     /\ Payload.error_message (Child.payload c') = Payload.error_message (Child.payload c)
     /\ Child.status c' = Child.status c
     /\ Child.child c' = Child.child c
     /\ Child.test_log c' = Child.test_log c)
  /\ (Child.failed c = true -> Child.help message c = Return Child.self c).
Proof.
  unfold Child.help. split; intros Hf; rewrite Hf; [|reflexivity].
  eexists. split; [reflexivity|]. repeat split.
Qed.

(** The theorem at a fresh child and at a failed one. *)
Lemma help_records_unless_failed_examples :
  Payload.help_message (Child.payload (state (Child.help "did you print a newline?"
                                                 Examples.silent)))
  = "did you print a newline?"
  /\ Child.help "did you print a newline?" Examples.broken = Return Child.self Examples.broken.
Proof.
  split.
  - destruct (proj1 (help_records_unless_failed "did you print a newline?" Examples.silent)
                eq_refl) as (c' & Hh & Hm & _).
    rewrite Hh. exact Hm.
  - exact (proj2 (help_records_unless_failed "did you print a newline?" Examples.broken)
             eq_refl).
Defined.

(** C4, as stated, fails both ways: on a Child that has not failed [help] is
    not a no-op (the hint goes into the payload), and on a Child that has
    failed it attaches nothing. *)
Lemma help_is_guarded_the_other_way :
  Child.failed Examples.silent = false
  /\ Child.help "hint" Examples.silent <> Return Child.self Examples.silent
  /\ Payload.help_message (Child.payload (state (Child.help "hint" Examples.silent))) = "hint"
  /\ Child.failed Examples.broken = true
  /\ Payload.help_message (Child.payload (state (Child.help "hint" Examples.broken)))
     = EmptyString.
Proof.
  repeat split.
  intros Heq. apply (f_equal (fun r => Payload.help_message (Child.payload (state r)))) in Heq.
  discriminate Heq.
Qed.

(** ** The check decorator *)

Section Check.

Implicit Types (w : world) (func : body).

Lemma blocked_iff (d : string) (results : gmap string verdict) :
  d <> EmptyString ->
  blocked (Some d) results = true <-> results !! d <> Some PASS.
Proof.
  intros Hd. unfold blocked, Str.truthy, get.
  rewrite (proj2 (String.eqb_neq d EmptyString) Hd). simpl.
  destruct (results !! d) as [[| |]|]; simpl; split; congruence.
Qed.

End Check.

(** C2.  For a check that declares the dependency [d] (the name of a check,
    so not the empty string): if the result stored for [d] is not PASS, or
    none is stored, the wrapper returns at once.  The result of the check is
    SKIP, in the test object and in [config.test_results]; the body [func] is
    not run (the state the wrapper leaves does not depend on it: children,
    log and helpers are as they were), no directory is copied and the
    working directory is not changed. *)
Theorem unmet_dependency_skips (d name : string) (func : body) (w : world) :
  d <> EmptyString ->
  test_results w !! d <> Some PASS ->
  exists w',
    check (Some d) name func w = Return tt w'
    /\ (forall func', check (Some d) name func' w = Return tt w')
    /\ Checks.result (this w') = SKIP
    /\ test_results w' = <[name := SKIP]> (test_results w)
    /\ Checks.rationale (this w')
       = Some (msg_str "can't check until a frown turns upside down")
    /\ directories w' = directories w
    /\ cwd w' = cwd w
    /\ Checks.dir (this w') = Checks.dir (this w)
    /\ Checks.children (this w') = Checks.children (this w)
    /\ Checks.log (this w') = Checks.log (this w)
    /\ Checks.helpers (this w') = Checks.helpers (this w).
Proof.
  intros Hd Hres.
  apply (blocked_iff d (test_results w) Hd) in Hres.
  eexists. unfold check. rewrite Hres.
  split; [reflexivity|]. repeat split.
Qed.

(** The theorem at a check that depends on [compiles], which has failed,
    and at one that depends on a check that has not run. *)
Lemma unmet_dependency_skips_examples :
  Checks.result (this (state (check (Some "compiles") "prints_hello"
                                (Examples.leaves [Examples.silent])
                                (Examples.run "prints_hello")))) = SKIP
  /\ Checks.children (this (state (check (Some "links") "prints_hello"
                                     (Examples.leaves [Examples.silent])
                                     (Examples.run "prints_hello")))) = [].
Proof.
  split.
  - destruct (unmet_dependency_skips "compiles" "prints_hello"
                (Examples.leaves [Examples.silent]) (Examples.run "prints_hello"))
      as (w' & Hc & _ & Hr & _); [discriminate | vm_compute; discriminate |].
    rewrite Hc. exact Hr.
  - destruct (unmet_dependency_skips "links" "prints_hello"
                (Examples.leaves [Examples.silent]) (Examples.run "prints_hello"))
      as (w' & Hc & _ & _ & _ & _ & _ & _ & _ & Hch & _);
      [discriminate | vm_compute; discriminate |].
    rewrite Hc. exact Hch.
Defined.

(** C9.  When the dependency gate is open, the directory has been copied and
    the body returns normally, the result is read off the last child alone:
    - if the last child has failed, the check is FAIL, its rationale is that
      child's error message and its helpers that child's help message;
    - if the last child has not failed, the check is PASS, whatever the
      latches of the children spawned before it, and the body's rationale
      and helpers are left as they are;
    - with no child at all the check is PASS.
    In each case the result is also stored in [config.test_results]. *)
Theorem result_follows_last_child
        (dependency : option string) (name : string) (func : body)
        (w w1 : world) (dirs : gset string) :
  let dst := Str.path_join (tempdir w) (Checks._testMethodName (this w)) in
  blocked dependency (test_results w) = false ->
  copytree (Str.path_join (tempdir w) (dependency_or dependency)) dst (directories w)
  = Some dirs ->
  func (set_cwd dst (set_directories dirs (set_this (Checks.set_dir dst (this w)) w)))
  = Return tt w1 ->
  (forall earlier c,
      Checks.children (this w1) = (earlier ++ [c])%list ->
      Child.failed c = true ->
      exists w',
        check dependency name func w = Return tt w'
        /\ Checks.result (this w') = FAIL
        /\ Checks.rationale (this w') = Some (Payload.error_message (Child.payload c))
        /\ Checks.helpers (this w') = Some (Payload.help_message (Child.payload c))
        /\ test_results w' = <[name := FAIL]> (test_results w1))
  /\ (forall earlier c,
        Checks.children (this w1) = (earlier ++ [c])%list ->
        Child.failed c = false ->
        exists w',
          check dependency name func w = Return tt w'
          /\ Checks.result (this w') = PASS
          /\ Checks.rationale (this w') = Checks.rationale (this w1)
          /\ Checks.helpers (this w') = Checks.helpers (this w1)
          /\ test_results w' = <[name := PASS]> (test_results w1))
  /\ (Checks.children (this w1) = [] ->
      exists w',
        check dependency name func w = Return tt w'
        /\ Checks.result (this w') = PASS
        /\ test_results w' = <[name := PASS]> (test_results w1)).
Proof.
  intros dst Hgate Hcopy Hbody.
  assert (Hcheck : check dependency name func w
                   = match attempt func
                             (set_cwd dst (set_directories dirs
                                (set_this (Checks.set_dir dst (this w)) w))) with
                     | Raise (Error rationale helpers result _) w2 =>
                         Return tt (store name result
                                      (set_this (Checks.set_helpers helpers
                                         (Checks.set_rationale rationale (this w2))) w2))
                     | Raise e w2 => Raise e w2
                     | Return _ w2 => Return tt (store name PASS w2)
                     end).
  { unfold check. rewrite Hgate. simpl. fold dst. rewrite Hcopy. reflexivity. }
  rewrite Hcheck. unfold attempt. rewrite Hbody.
  split; [|split].
  - intros earlier c Hch Hf. rewrite Hch, last_snoc, Hf.
    eexists. split; [reflexivity|]. repeat split.
  - intros earlier c Hch Hf. rewrite Hch, last_snoc, Hf.
    eexists. split; [reflexivity|]. repeat split.
  - intros Hch. rewrite Hch. simpl.
    eexists. split; [reflexivity|]. repeat split.
Qed.

(** The theorem at two bodies: one leaves a failed child followed by a sound
    one and passes, the other leaves them in the other order and fails with
    the message of the last. *)
Lemma result_follows_last_child_examples :
  Checks.result (this (state (check (Some "exists") "prints_hello"
                                (Examples.leaves [Examples.broken; Examples.silent])
                                (Examples.run "prints_hello")))) = PASS
  /\ Checks.rationale (this (state (check None "prints_hello"
                                      (Examples.leaves [Examples.silent; Examples.broken])
                                      (Examples.run "prints_hello"))))
     = Some (msg_str "expected prompt for input, found none").
Proof.
  split.
  - destruct (result_follows_last_child (Some "exists") "prints_hello"
                (Examples.leaves [Examples.broken; Examples.silent])
                (Examples.run "prints_hello") _
                ({["/tmp/check50/prints_hello"]} ∪ directories (Examples.run "prints_hello"))
                ltac:(vm_compute; reflexivity) ltac:(vm_compute; reflexivity) eq_refl)
      as (_ & Hpass & _).
    destruct (Hpass [Examples.broken] Examples.silent eq_refl eq_refl) as (w' & Hc & Hr & _).
    rewrite Hc. exact Hr.
  - destruct (result_follows_last_child None "prints_hello"
                (Examples.leaves [Examples.silent; Examples.broken])
                (Examples.run "prints_hello") _
                ({["/tmp/check50/prints_hello"]} ∪ directories (Examples.run "prints_hello"))
                ltac:(vm_compute; reflexivity) ltac:(vm_compute; reflexivity) eq_refl)
      as (Hfail & _).
    destruct (Hfail [Examples.silent] Examples.broken eq_refl eq_refl) as (w' & Hc & _ & Hr & _).
    rewrite Hc. exact Hr.
Defined.

(** ** The valgrind report *)

Section Valgrind.

Implicit Types (msgs log : list string) (reported : gset string) (m : string).

Lemma filter_other_after m (reported : gset string) msgs :
  m ∈ reported ->
  filter (fun x => x ∉ reported) (filter (fun x => x <> m) msgs)
  = filter (fun x => x ∉ reported) msgs.
Proof.
  intros Hm. rewrite list_filter_filter. apply list_filter_iff.
  intros x. split; [tauto|]. intros Hx. split; [exact Hx|]. congruence.
Qed.

Lemma filter_fresh m (reported : gset string) msgs :
  filter (fun x => x ∉ ({[m]} ∪ reported : gset string)) msgs
  = filter (fun x => x ∉ reported) (filter (fun x => x <> m) msgs).
Proof.
  rewrite list_filter_filter. apply list_filter_iff.
  intros x. rewrite not_elem_of_union, not_elem_of_singleton. tauto.
Qed.

(** The loop of [_check_valgrind] against the spec's [dedupe]: started with
    the set [reported], it logs the first copy of each message that is not
    in the set yet. *)
Lemma scan_dedupe dir (errors : list Checks.error) msgs :
  Forall2 (fun e m => Checks.compose dir e = Some m) errors msgs ->
  forall log reported,
    Checks.scan dir errors log reported
    = (log ++ filter (fun x => x ∉ reported) (dedupe msgs),
       list_to_set msgs ∪ reported, true).
Proof.
  induction 1 as [|e m errors msgs He _ IH]; intros log reported.
  - simpl. rewrite app_nil_r. f_equal. f_equal. now rewrite (left_id_L ∅ (∪)).
  - cbn [Checks.scan dedupe]. rewrite He.
    case_bool_decide as Hin.
    + rewrite IH. rewrite filter_cons_False by tauto.
      rewrite filter_other_after by exact Hin.
      f_equal. f_equal. simpl. apply set_eq. intros x.
      rewrite !elem_of_union, elem_of_singleton.
      split; [tauto | intros [[->|?]|?]; tauto].
    + rewrite IH. rewrite filter_cons_True by exact Hin.
      rewrite filter_fresh. rewrite <- app_assoc. simpl.
      f_equal. f_equal. apply set_eq. intros x.
      rewrite !elem_of_union. tauto.
Qed.

Lemma dedupe_elem m msgs : m ∈ dedupe msgs <-> m ∈ msgs.
Proof.
  induction msgs as [|a msgs IH]; simpl; [reflexivity|].
  rewrite !elem_of_cons, list_elem_of_filter, IH.
  destruct (decide (m = a)); tauto.
Qed.

Lemma dedupe_NoDup msgs : NoDup (dedupe msgs).
Proof.
  induction msgs as [|a msgs IH]; simpl; constructor.
  - rewrite list_elem_of_filter. tauto.
  - now apply NoDup_filter.
Qed.

Lemma filter_none {A : Type} (P : A -> Prop) `{forall x, Decision (P x)} (l : list A) :
  (forall x, ~ P x) -> filter P l = [].
Proof.
  intros Hno. induction l as [|a l IH]; [reflexivity|].
  now rewrite filter_cons_False by apply Hno.
Qed.

(** Each message that occurs is logged once. *)
Lemma dedupe_once m msgs :
  m ∈ msgs -> length (filter (fun x => x = m) (dedupe msgs)) = 1.
Proof.
  induction msgs as [|a msgs IH]; intros Hin; [now apply elem_of_nil in Hin|].
  simpl. destruct (decide (a = m)) as [->|Hne].
  - rewrite filter_cons_True by reflexivity. simpl. f_equal.
    rewrite list_filter_filter.
    rewrite filter_none; [reflexivity|]. intros x. tauto.
  - rewrite filter_cons_False by exact Hne.
    rewrite list_filter_filter.
    rewrite (list_filter_iff _ (fun x => x = m)).
    + apply IH. apply elem_of_cons in Hin as [->|Hin]; [now contradiction Hne | exact Hin].
    + intros x. split; [tauto|]. intros ->. split; [reflexivity|]. congruence.
Qed.

(** First-seen order: one more message goes to the end of the log when it
    is new, and nowhere when it has been seen. *)
Lemma dedupe_snoc m msgs :
  dedupe (msgs ++ [m]) = dedupe msgs ++ (if bool_decide (m ∈ msgs) then [] else [m]).
Proof.
  induction msgs as [|a msgs IH]; [reflexivity|].
  simpl. rewrite IH, filter_app. f_equal. f_equal.
  destruct (decide (m = a)) as [->|Hne].
  - rewrite (bool_decide_eq_true_2 (a ∈ a :: msgs)) by left.
    case_bool_decide; [reflexivity|]. now rewrite filter_cons_False by tauto.
  - case_bool_decide as Hin.
    + rewrite (bool_decide_eq_true_2 (m ∈ a :: msgs)) by (now right). reflexivity.
    + rewrite (bool_decide_eq_false_2 (m ∈ a :: msgs)).
      * now rewrite filter_cons_True by exact Hne.
      * intros Hin'. apply elem_of_cons in Hin' as [?|?]; tauto.
Qed.

(** The frames outside the directory play no part in the location. *)
Lemma location_inside dir (fs : list Checks.frame) :
  Checks.location dir fs
  = Checks.location dir (filter (fun f => inside dir f = true) fs).
Proof.
  induction fs as [|f fs IH]; [reflexivity|].
  unfold inside at 1. cbn [Checks.location].
  destruct (Checks.obj f) as [o|] eqn:Ho.
  - destruct (String.eqb (Str.dirname o) dir) eqn:Hdir.
    + rewrite filter_cons_True by (unfold inside; now rewrite Ho).
      cbn [Checks.location]. now rewrite Ho, Hdir.
    + rewrite filter_cons_False by (unfold inside; rewrite Ho; congruence).
      exact IH.
  - rewrite filter_cons_False by (unfold inside; rewrite Ho; congruence).
    exact IH.
Qed.

End Valgrind.

(** C8.  The messages [_check_valgrind] appends to the log, after its header
    line, are those composed for the errors of the report, deduplicated in
    first-seen order: no message is logged twice, each message composed is
    logged exactly once, and a further error adds its message at the end when
    it is new and nothing when it has been seen.  In the message, only the
    frames whose object is in the directory of the check count: two errors
    that differ in other frames alone compose the same message, and when no
    frame is inside the message carries no location. *)
Theorem valgrind_log_is_deduplicated
        (report : list Checks.error) (msgs : list string) (s : Checks.t) :
  Forall2 (fun e m => Checks.compose (Checks.dir s) e = Some m) report msgs ->
  Checks.log (state (Checks._check_valgrind report s))
  = Checks.log s ++ ["checking for valgrind errors... "] ++ dedupe msgs
  /\ NoDup (dedupe msgs)
  /\ (forall m, m ∈ msgs -> length (filter (fun x => x = m) (dedupe msgs)) = 1)
  /\ (forall m, m ∈ dedupe msgs -> m ∈ msgs)
  /\ (forall pre m,
        dedupe (pre ++ [m]) = dedupe pre ++ (if bool_decide (m ∈ pre) then [] else [m]))
  /\ (forall e e',
        Checks.kind e' = Checks.kind e ->
        Checks.what e' = Checks.what e ->
        Checks.xwhat_text e' = Checks.xwhat_text e ->
        filter (fun f => inside (Checks.dir s) f = true) (Checks.frames e')
        = filter (fun f => inside (Checks.dir s) f = true) (Checks.frames e) ->
        Checks.compose (Checks.dir s) e' = Checks.compose (Checks.dir s) e)
  /\ (forall fs,
        Forall (fun f => inside (Checks.dir s) f = false) fs ->
        Checks.location (Checks.dir s) fs = []).
Proof.
  intros Hmsgs.
  split; [|split; [|split; [|split; [|split; [|split]]]]].
  - unfold Checks._check_valgrind. cbn [Checks.dir Checks.log Checks.set_log].
    rewrite (scan_dedupe _ _ _ Hmsgs).
    rewrite (list_filter_iff _ (fun _ => True)) by (intros x; split; [tauto | intros _; apply not_elem_of_empty]).
    assert (Hall : filter (fun _ : string => True) (dedupe msgs) = dedupe msgs).
    { induction (dedupe msgs) as [|a l IH]; [reflexivity|].
      rewrite filter_cons_True by exact I. now rewrite IH. }
    rewrite Hall, <- app_assoc.
    case_bool_decide; reflexivity.
  - apply dedupe_NoDup.
  - intros m. apply dedupe_once.
  - intros m. apply dedupe_elem.
  - intros pre m. apply dedupe_snoc.
  - intros e e' Hk Hw Hx Hfs. unfold Checks.compose.
    rewrite Hk, Hw, Hx.
    rewrite (location_inside _ (Checks.frames e')), (location_inside _ (Checks.frames e)).
    now rewrite Hfs.
  - intros fs Hout. rewrite location_inside.
    replace (filter (fun f => inside (Checks.dir s) f = true) fs) with (@nil Checks.frame);
      [reflexivity|].
    induction Hout as [|f fs Hf _ IH]; [reflexivity|].
    rewrite filter_cons_False by congruence. exact IH.
Qed.

(** The theorem at a report with the same leak twice and an invalid read in
    the C library: the leak is logged once, with its place in [hello.c]; the
    read is logged without a location. *)
Lemma valgrind_log_of_report :
  Checks.log (state (Checks._check_valgrind Examples.report Examples.leaks))
  = ["checking for valgrind errors... ";
     Str.tab +:+ "40 bytes in 1 blocks are definitely lost: (file: hello.c, line: 7)";
     Str.tab +:+ "Invalid read of size 4"].
Proof.
  pose proof (valgrind_log_is_deduplicated Examples.report
                [Str.tab +:+ "40 bytes in 1 blocks are definitely lost: (file: hello.c, line: 7)";
                 Str.tab +:+ "Invalid read of size 4";
                 Str.tab +:+ "40 bytes in 1 blocks are definitely lost: (file: hello.c, line: 7)"]
                Examples.leaks) as Hlog.
  destruct Hlog as (Hlog & _).
  - repeat constructor.
  - rewrite Hlog. reflexivity.
Defined.

(** ** Mismatch *)

Section Slices.

Lemma substring_prefix_length (k : nat) (s : string) :
  k <= String.length s -> String.length (String.substring 0 k s) = k.
Proof.
  revert s. induction k as [|k IH]; intros [|ch s] Hk; simpl in *;
    try reflexivity; try lia.
  rewrite IH by lia. reflexivity.
Qed.

Lemma substring_is_prefix (k : nat) (s : string) :
  String.prefix (String.substring 0 k s) s = true.
Proof.
  revert s. induction k as [|k IH]; intros [|ch s]; simpl; try reflexivity.
  destruct (ascii_dec ch ch) as [_|Hne]; [apply IH | now contradiction Hne].
Qed.

Lemma substring_all_but_last (body : string) (q : ascii) :
  String.substring 0 (String.length body) (body +:+ String q EmptyString) = body.
Proof.
  induction body as [|ch body IH]; [reflexivity|].
  simpl. now rewrite IH.
Qed.

Lemma length_append (a b : string) :
  String.length (a +:+ b) = String.length a + String.length b.
Proof. induction a as [|ch a IH]; simpl; [reflexivity | now rewrite IH]. Qed.

(** [s[1:-1]] strips the first and the last character. *)
Lemma slice_strips_quotes (q1 q2 : ascii) (body : string) :
  Str.slice 1 (-1) (String q1 (body +:+ String q2 EmptyString)) = body.
Proof.
  unfold Str.slice, Str.clamp.
  cbn [String.length]. rewrite length_append. cbn [String.length].
  set (n := String.length body).
  replace (1 <? 0)%Z with false by reflexivity.
  replace (-1 <? 0)%Z with true by reflexivity.
  replace (Z.to_nat (Z.min 1 (Z.of_nat (S (n + 1))))) with 1 by lia.
  replace (Z.to_nat (Z.max 0 (-1 + Z.of_nat (S (n + 1))) - Z.min 1 (Z.of_nat (S (n + 1)))))
    with n by lia.
  cbn [String.substring]. apply substring_all_but_last.
Qed.

(** [s[:15]] of a longer string is its first 15 characters. *)
Lemma slice_first_15 (s : string) :
  15 < String.length s ->
  String.length (Str.slice 0 15 s) = 15 /\ String.prefix (Str.slice 0 15 s) s = true.
Proof.
  intros Hlen. unfold Str.slice, Str.clamp.
  replace (0 <? 0)%Z with false by reflexivity.
  replace (15 <? 0)%Z with false by reflexivity.
  replace (Z.to_nat (Z.min 0 (Z.of_nat (String.length s)))) with 0 by lia.
  replace (Z.to_nat (Z.min 15 (Z.of_nat (String.length s))
                     - Z.min 0 (Z.of_nat (String.length s)))) with 15 by lia.
  split; [apply substring_prefix_length; lia | apply substring_is_prefix].
Qed.

End Slices.

(** C10.  [Mismatch.raw] renders the class [EOF] as the bare string [EOF]; a
    list as the str made of its items joined with newlines; and any other
    value as its [repr] with the first and the last character (the quotation
    marks) stripped, between double quotes: whole when it has at most 15
    characters, and cut to its first 15 characters followed by [...] when it
    has more.  The display form of a Mismatch puts the two renderings in
    [expected .., not ..]. *)
Theorem raw_truncates_to_15 `{Python} :
  Mismatch.raw v_EOF = "EOF"
  /\ (forall l, Mismatch.raw (v_list l) = Mismatch.raw (v_str (Str.join Str.newline l)))
  /\ (forall v,
        v <> v_EOF -> (forall l, v <> v_list l) ->
        let body := Str.slice 1 (-1) (repr v) in
        (String.length body <= 15 ->
         Mismatch.raw v = Str.quote +:+ body +:+ Str.quote)
        /\ (15 < String.length body ->
            exists shown,
              Mismatch.raw v = Str.quote +:+ (shown +:+ "...") +:+ Str.quote
              /\ String.length shown = 15
              /\ String.prefix shown body = true))
  /\ (forall q1 q2 body,
        Str.slice 1 (-1) (String q1 (body +:+ String q2 EmptyString)) = body)
  /\ (forall m,
        Mismatch.str m
        = "expected " +:+ Mismatch.raw (Mismatch.expected m)
            +:+ ", not " +:+ Mismatch.raw (Mismatch.actual m)).
Proof.
  split; [reflexivity|]. split; [reflexivity|]. split; [|split].
  - intros v Heof Hlist body.
    assert (Hraw : Mismatch.raw v
                   = Str.quote
                       +:+ (if Nat.ltb 15 (String.length body)
                            then Str.slice 0 15 body +:+ "..." else body)
                       +:+ Str.quote).
    { destruct v as [|s|l|f]; try reflexivity.
      - now contradiction Heof.
      - now contradiction (Hlist l). }
    rewrite Hraw. split; intros Hlen.
    + rewrite (proj2 (Nat.ltb_ge 15 (String.length body))) by exact Hlen. reflexivity.
    + rewrite (proj2 (Nat.ltb_lt 15 (String.length body))) by exact Hlen.
      exists (Str.slice 0 15 body). split; [reflexivity|].
      now apply slice_first_15.
  - apply slice_strips_quotes.
  - reflexivity.
Qed.

(** The theorem at a short str, a long one, a list and the class [EOF]. *)
Lemma raw_examples :
  @Mismatch.raw Ascii_python.python (v_str "Hello") = Str.quote +:+ "Hello" +:+ Str.quote
  /\ @Mismatch.raw Ascii_python.python (v_str "hello, world! this is long")
     = Str.quote +:+ "hello, world! t..." +:+ Str.quote
  /\ @Mismatch.raw Ascii_python.python (v_list ["ab"; "cd"])
     = Str.quote +:+ "ab\ncd" +:+ Str.quote
  /\ @Mismatch.str Ascii_python.python (Mismatch.mk v_EOF (v_str "Hello"))
     = "expected EOF, not " +:+ Str.quote +:+ "Hello" +:+ Str.quote.
Proof.
  pose proof (@raw_truncates_to_15 Ascii_python.python) as (Heof & Hlist & Hraw & _ & Hstr).
  split; [|split; [|split]].
  - apply (proj1 (Hraw (v_str "Hello") ltac:(discriminate) ltac:(discriminate))).
    vm_compute. lia.
  - destruct (proj2 (Hraw (v_str "hello, world! this is long")
                       ltac:(discriminate) ltac:(discriminate)))
      as (shown & Hshown & _); [vm_compute; lia|].
    reflexivity.
  - rewrite Hlist.
    apply (proj1 (Hraw (v_str (Str.join Str.newline ["ab"; "cd"]))
                    ltac:(discriminate) ltac:(discriminate))).
    vm_compute. lia.
  - rewrite Hstr. reflexivity.
Defined.

(* ===================================================================== *)
(** * Further properties of the harness *)
(* ===================================================================== *)

(** ** A message only with the latch *)

Section Latched.

Implicit Types (c : Child.t) (m : message).

Lemma latched_fail m c : latched_message (Child.fail m c).
Proof. intros _. apply fail_sets_latch. Qed.

(** A step that keeps the latch when set and the message as it is. *)
Lemma latched_step c c' :
  (Child.failed c = true -> Child.failed c' = true) ->
  Payload.error_message (Child.payload c') = Payload.error_message (Child.payload c) ->
  latched_message c -> latched_message c'.
Proof. unfold latched_message. intros Hf Hm Hc. rewrite Hm. auto. Qed.

Lemma latched_wait timeout c :
  latched_message c -> latched_message (state (Child.wait timeout c)).
Proof.
  intros Hc. unfold Child.wait.
  destruct (Child.poll _ _ _) as [[how p] out].
  destruct how; simpl.
  - destruct (pexpect.closed p); simpl; [exact Hc|].
    destruct (Child.drain _ _) as [[out'|] rest]; simpl.
    + case_bool_decide; simpl; [apply latched_fail | exact Hc].
    + exact Hc.
  - exact Hc.
  - apply latched_fail.
  - exact Hc.
Qed.

Lemma latched_match `{Python} output str_output c :
  latched_message c -> latched_message (state (Child.match_ output str_output c)).
Proof.
  intros Hc. unfold Child.match_.
  destruct (Child.failed c) eqn:Hf; [exact Hc|].
  destruct output as [|pattern|l|f]; simpl; try exact Hc.
  - destruct (re_match _ _) as [[|]|]; simpl; [exact Hc | apply latched_fail | exact Hc].
  - destruct (String.eqb _ _); simpl; [exact Hc | apply latched_fail].
Qed.

End Latched.

(** X1.  A Child carries an error message only when its latch is set: this
    holds of a new Child, and every operation keeps it ([stdin], [stdout],
    [reject], [exit], [wait], [match], [help], [kill], [fail]), whether it
    returns or raises. *)
Theorem message_only_with_latch `{Python} (c : Child.t) :
  (forall log p, latched_message (Child.init log p))
  /\ (latched_message c ->
      (forall line prompt timeout,
          latched_message (state (Child.stdin line prompt timeout c)))
      /\ (forall output str_output timeout,
            latched_message (state (Child.stdout output str_output timeout c)))
      /\ (forall timeout, latched_message (state (Child.reject timeout c)))
      /\ (forall code timeout, latched_message (state (Child.exit code timeout c)))
      /\ (forall timeout, latched_message (state (Child.wait timeout c)))
      /\ (forall output str_output,
            latched_message (state (Child.match_ output str_output c)))
      /\ (forall message, latched_message (state (Child.help message c)))
      /\ latched_message (Child.kill c)
      /\ (forall m, latched_message (Child.fail m c))).
Proof.
  split; [intros log p Hm; discriminate Hm|].
  intros Hc. repeat split.
  - intros line prompt timeout. unfold Child.stdin.
    destruct (Child.failed c) eqn:Hf; [exact Hc|].
    unfold pexpect.expect, pexpect.send.
    destruct prompt; simpl; destruct (pexpect.closed (Child.child c)); simpl;
      try exact Hc.
    destruct (pexpect.prompts (Child.child c)) as [|[| |] rest]; simpl;
      try apply latched_fail; exact Hc.
  - intros output str_output timeout. unfold Child.stdout.
    destruct (Child.failed c) eqn:Hf; [exact Hc|].
    pose proof (latched_wait timeout c Hc) as Hw.
    destruct (Child.wait timeout c) as [v c1|e c1]; simpl in *; [|exact Hw].
    destruct output as [v0|]; [|exact Hw].
    destruct (truthy (Some v0)); [now apply latched_match | exact Hw].
  - intros timeout. unfold Child.reject.
    destruct (Child.failed c) eqn:Hf; [exact Hc|].
    pose proof (latched_wait timeout
                  (Child.log_append "checking that input was rejected..." c) Hc) as Hw.
    destruct (Child.wait timeout _) as [v c1|[r h res [t|]| | | | | |] c1]; simpl in *;
      try exact Hw.
    apply latched_fail.
  - intros code timeout. unfold Child.exit.
    destruct (Child.failed c) eqn:Hf; [exact Hc|].
    pose proof (latched_wait timeout c Hc) as Hw.
    destruct (Child.wait timeout c) as [v c1|e c1]; simpl in *; [|exact Hw].
    destruct code as [k|]; [|exact Hw].
    simpl. case_bool_decide; exact Hw.
  - intros timeout. now apply latched_wait.
  - intros output str_output. now apply latched_match.
  - intros message. unfold Child.help.
    destruct (Child.failed c) eqn:Hf; [exact Hc|]. exact Hc.
  - exact Hc.
  - intros m. apply latched_fail.
Qed.

(** The theorem along a run: a greeting is awaited on a new Child, then the
    exit status is asked for. *)
Lemma message_only_with_latch_greeter :
  latched_message
    (state (Child.exit (Some 0%Z) 5
              (state (@Child.stdout Ascii_python.python (Some (v_str "Bye")) None 3
                        Examples2.greeter)))).
Proof.
  pose proof (@message_only_with_latch Ascii_python.python Examples2.greeter) as [Hnew Hkeep].
  destruct (Hkeep (Hnew [] _)) as (_ & Hstdout & _).
  pose proof (@message_only_with_latch Ascii_python.python
                (state (@Child.stdout Ascii_python.python (Some (v_str "Bye")) None 3
                          Examples2.greeter))) as [_ Hkeep'].
  destruct (Hkeep' (Hstdout _ _ _)) as (_ & _ & _ & Hexit & _).
  apply Hexit.
Defined.

(** ** stdout with an expectation *)

(** What [wait] returns once the output is collected and the process did
    not die of a segmentation fault. *)
Lemma wait_collected_sound (timeout : nat) (c : Child.t)
      (p : pexpect.spawn) (out out' : list string) (rest : list pexpect.read) :
  pexpect.closed (Child.child c) = false ->
  Child.poll timeout (Child.child c) [] = (Child.poll_break, p, out) ->
  Child.drain (pexpect.pipe p) out = (Some out', rest) ->
  pexpect.signalstatus (Child.child c) <> Some SIGSEGV ->
  exists c',
    Child.wait timeout c = Return Child.self c'
    /\ Child.status c' = Child.status c
    /\ Child.test_log c' = Child.test_log c
    /\ Child.payload c'
       = Payload.set_exit (pexpect.exitstatus (Child.child c))
           (Payload.set_output (Child.normalize out') (Child.payload c))
    /\ pexpect.closed (Child.child c') = true.
Proof.
  intros Hopen Hp Hd Hsig.
  rewrite (wait_collected timeout c p out out' rest Hopen Hp Hd).
  rewrite bool_decide_eq_false_2 by exact Hsig.
  eexists. split; [reflexivity|]. repeat split.
Qed.

(** X2.  [stdout(pattern)] on a Child that has not failed, for an open
    process whose output is collected before the deadline and that did not
    die of a segmentation fault: the call succeeds exactly when [re.match]
    finds the pattern at the start of the stored buffer.  When it does not,
    the Child is returned with the latch set, the buffer stays in
    [payload.output], and (no message being recorded before) the message is
    the Mismatch of what was expected ([str_output] if given, else the
    pattern) and the buffer with CRLF replaced once more.  When the pattern
    does not compile, the call raises [re.error]: the buffer is stored, the
    latch stays unset and no message is recorded. *)
Theorem stdout_pattern `{Python} (timeout : nat) (c : Child.t)
        (p : pexpect.spawn) (out out' : list string) (rest : list pexpect.read)
        (pattern : string) (str_output : option pyval) :
  Child.failed c = false ->
  pexpect.closed (Child.child c) = false ->
  Child.poll timeout (Child.child c) [] = (Child.poll_break, p, out) ->
  Child.drain (pexpect.pipe p) out = (Some out', rest) ->
  pexpect.signalstatus (Child.child c) <> Some SIGSEGV ->
  pattern <> EmptyString ->
  let buffer := Child.normalize out' in
  let call := Child.stdout (Some (v_str pattern)) str_output timeout c in
  (succeeds call <-> re_match pattern buffer = Some true)
  /\ (re_match pattern buffer = None ->
      exists c',
        call = Raise re_error c'
        /\ Child.failed c' = false
        /\ Payload.output (Child.payload c') = buffer
        /\ Payload.error_message (Child.payload c')
           = Payload.error_message (Child.payload c))
  /\ (re_match pattern buffer = Some false ->
      exists c',
        call = Return Child.self c'
        /\ Child.failed c' = true
        /\ Payload.output (Child.payload c') = buffer
        /\ (message_truthy (Payload.error_message (Child.payload c)) = false ->
            Payload.error_message (Child.payload c')
            = msg_mismatch
                (Mismatch.mk (match str_output with Some v => v | None => v_str pattern end)
                             (v_str (Str.replace Str.crlf Str.newline buffer))))).
Proof.
  intros Hf Hopen Hp Hd Hsig Hpat buffer call.
  destruct (wait_collected_sound timeout c p out out' rest Hopen Hp Hd Hsig)
    as (c1 & Hw & Hst & Hlog & Hpay & _).
  assert (Hf1 : Child.failed c1 = false) by (unfold Child.failed; now rewrite Hst).
  assert (Hout : Payload.output (Child.payload c1) = buffer) by now rewrite Hpay.
  assert (Hcall : call = Child.match_ (v_str pattern) str_output c1).
  { unfold call, Child.stdout. rewrite Hf, Hw. cbn [truthy].
    unfold Str.truthy. now rewrite (proj2 (String.eqb_neq pattern EmptyString) Hpat). }
  rewrite Hcall. unfold Child.match_. rewrite Hf1. cbn [Child.payload Child.log_append].
  rewrite Hout.
  destruct (re_match pattern buffer) as [[|]|] eqn:Hre.
  - split; [|split; discriminate]. split; [reflexivity|]. intros _.
    eexists. split; [reflexivity|]. exact Hf1.
  - split; [|split; [discriminate|]].
    + split; [|discriminate]. intros (c' & [= <-] & Hf').
      rewrite fail_sets_latch in Hf'. discriminate.
    + intros _. eexists. split; [reflexivity|].
      split; [apply fail_sets_latch|]. split.
      * rewrite (proj1 (proj2 (proj2 (fail_touches_nothing_else _ _)))). exact Hout.
      * intros Hm. apply fail_records_first. cbn [Child.payload Child.log_append].
        rewrite Hpay. exact Hm.
  - split; [|split; [|discriminate]].
    + split; [|discriminate]. intros (c' & Hd' & _). discriminate Hd'.
    + intros _. eexists. split; [reflexivity|].
      split; [exact Hf1|]. split; [exact Hout|].
      cbn [Child.payload Child.log_append]. now rewrite Hpay.
Qed.

(** The theorem at the process that prints [Hello]: [stdout("Bye")] fails
    with the Mismatch of [Bye] and [Hello]. *)
Lemma stdout_pattern_greeter :
  Payload.error_message
    (Child.payload (state (@Child.stdout Ascii_python.python (Some (v_str "Bye")) None 3
                             Examples2.greeter)))
  = msg_mismatch (Mismatch.mk (v_str "Bye") (v_str "Hello")).
Proof.
  destruct (@stdout_pattern Ascii_python.python 3 Examples2.greeter
              (pexpect.tick (pexpect.set_pipe [pexpect.EOF] (Child.child Examples2.greeter)))
              ["Hello"] ["Hello"] [] "Bye" None eq_refl eq_refl eq_refl eq_refl
              ltac:(discriminate) ltac:(discriminate))
    as (_ & _ & Hfail).
  destruct (Hfail eq_refl) as (c' & Hcall & _ & _ & Hm).
  rewrite Hcall. exact (Hm eq_refl).
Defined.

(** X3.  An expectation that is false in Python (the empty str, the empty
    list) is no expectation: [stdout] with it does what [stdout()] does, so
    it only waits, and never compares the output with anything. *)
Theorem stdout_empty_expectation `{Python}
        (str_output : option pyval) (timeout : nat) (c : Child.t) :
  Child.stdout (Some (v_str EmptyString)) str_output timeout c
  = Child.stdout None str_output timeout c
  /\ Child.stdout (Some (v_list [])) str_output timeout c
     = Child.stdout None str_output timeout c
  /\ (forall c', Child.wait timeout c = Return Child.self c' ->
      Child.failed c = false ->
      Child.stdout (Some (v_str EmptyString)) str_output timeout c = Return Child.self c'
      /\ Child.test_log c' = Child.test_log c).
Proof.
  split; [|split].
  - unfold Child.stdout. destruct (Child.failed c); [reflexivity|].
    destruct (Child.wait timeout c); reflexivity.
  - unfold Child.stdout. destruct (Child.failed c); [reflexivity|].
    destruct (Child.wait timeout c); reflexivity.
  - intros c' Hw Hf. unfold Child.stdout. rewrite Hf, Hw. split; [reflexivity|].
    revert Hw. unfold Child.wait.
    destruct (Child.poll _ _ _) as [[how p] out].
    destruct how; try discriminate.
    + destruct (pexpect.closed p); try discriminate.
      destruct (Child.drain _ _) as [[out'|] rest]; try discriminate.
      simpl. case_bool_decide; intros [= <-]; [|reflexivity].
      now rewrite (proj1 (fail_touches_nothing_else _ _)).
    + intros [= <-]. now rewrite (proj1 (fail_touches_nothing_else _ _)).
Qed.

(** X4.  Expecting EOF is not checked: on a Child that has not failed and
    whose [wait] returns without failing it, [stdout(EOF)] logs
    [checking for EOF...] and raises [TypeError] ([re.match] is given the
    class [EOF] as its pattern); the latch stays unset.  The same holds of a
    non-empty list. *)
Theorem stdout_EOF_raises_TypeError `{Python}
        (str_output : option pyval) (timeout : nat) (c c' : Child.t) :
  Child.failed c = false ->
  Child.wait timeout c = Return Child.self c' ->
  Child.failed c' = false ->
  Child.stdout (Some v_EOF) str_output timeout c
  = Raise TypeError (Child.log_append "checking for EOF..." c')
  /\ (forall x l, exists c'',
         Child.stdout (Some (v_list (x :: l))) str_output timeout c = Raise TypeError c''
         /\ Child.failed c'' = false).
Proof.
  intros Hf Hw Hf'. split.
  - unfold Child.stdout. rewrite Hf, Hw. cbn [truthy].
    unfold Child.match_. now rewrite Hf'.
  - intros x l. unfold Child.stdout. rewrite Hf, Hw. cbn [truthy].
    unfold Child.match_. rewrite Hf'. eexists. split; [reflexivity|]. exact Hf'.
Qed.

(** The theorem at the process that prints [Hello] and exits. *)
Lemma stdout_EOF_greeter :
  exists c',
    @Child.stdout Ascii_python.python (Some v_EOF) None 3 Examples2.greeter
    = Raise TypeError c'.
Proof.
  eexists.
  refine (proj1 (@stdout_EOF_raises_TypeError Ascii_python.python None 3 Examples2.greeter
                   _ eq_refl _ _)).
  - vm_compute. reflexivity.
  - reflexivity.
Defined.

(** ** exit with a code *)

(** X5.  [exit] on a Child that has not failed, for an open process that
    went away before the deadline without a segmentation fault: [exit(code)]
    succeeds exactly when the exit status of the process is [code], and
    raises [AttributeError] otherwise; [exit()] returns the exit status and
    leaves the latch unset. *)
Theorem exit_succeeds_iff_status (timeout : nat) (c : Child.t)
        (p : pexpect.spawn) (out out' : list string) (rest : list pexpect.read) (k : Z) :
  Child.failed c = false ->
  pexpect.closed (Child.child c) = false ->
  Child.poll timeout (Child.child c) [] = (Child.poll_break, p, out) ->
  Child.drain (pexpect.pipe p) out = (Some out', rest) ->
  pexpect.signalstatus (Child.child c) <> Some SIGSEGV ->
  (succeeds (Child.exit (Some k) timeout c) <-> pexpect.exitstatus (Child.child c) = Some k)
  /\ (pexpect.exitstatus (Child.child c) <> Some k ->
      exists c', Child.exit (Some k) timeout c = Raise AttributeError c'
                 /\ Child.failed c' = false)
  /\ (exists c', Child.exit None timeout c
                 = Return (Child.exit_status (pexpect.exitstatus (Child.child c))) c'
                 /\ Child.failed c' = false
                 /\ Child.test_log c' = Child.test_log c).
Proof.
  intros Hf Hopen Hp Hd Hsig.
  destruct (wait_collected_sound timeout c p out out' rest Hopen Hp Hd Hsig)
    as (c1 & Hw & Hst & Hlog & Hpay & _).
  assert (Hf1 : Child.failed c1 = false) by (unfold Child.failed; now rewrite Hst).
  assert (Hex : Payload.exit (Child.payload c1) = pexpect.exitstatus (Child.child c))
    by now rewrite Hpay.
  rewrite (exit_after_wait (Some k) timeout c _ _ Hf Hw).
  rewrite (exit_after_wait None timeout c _ _ Hf Hw).
  cbv zeta. rewrite Hex.
  split; [|split].
  - case_bool_decide as Hk.
    + split; [intros _; exact Hk|]. intros _. eexists. split; [reflexivity|]. exact Hf1.
    + split; [intros (c' & Hd' & _); discriminate Hd' | intros Hk'; now contradiction Hk].
  - intros Hk. rewrite bool_decide_eq_false_2 by exact Hk.
    eexists. split; [reflexivity|]. exact Hf1.
  - eexists. split; [reflexivity|]. split; [exact Hf1 | exact Hlog].
Qed.

(** The theorem at the process that prints [Hello] and exits with status 0. *)
Lemma exit_succeeds_greeter :
  succeeds (Child.exit (Some 0%Z) 5 Examples2.greeter).
Proof.
  apply (proj1 (exit_succeeds_iff_status 5 Examples2.greeter
                  (pexpect.tick (pexpect.set_pipe [pexpect.EOF]
                                   (Child.child Examples2.greeter)))
                  ["Hello"] ["Hello"] [] 0%Z eq_refl eq_refl eq_refl eq_refl
                  ltac:(discriminate))).
  reflexivity.
Defined.

(** ** stdin *)

(** X6.  [stdin] on a Child that has not failed.  On an open process it
    writes to the process exactly when it does not fail: without [prompt],
    or when the process prompts, the line (or the end of input) is sent,
    once, and the payload is untouched; with [prompt], when no prompt comes
    (timeout or EOF), nothing is sent, the latch is set, and the message is
    [expected prompt for input, found none] unless one was recorded.  On a
    closed process it raises, with only the log written to: with [prompt]
    the [ValueError] of the read that [expect] makes, and without it what
    the write raises ([OSError] for a line, [ValueError] for the end of
    input). *)
Theorem stdin_writes_iff_prompted (line : Child.line) (prompt : bool)
        (timeout : nat) (c : Child.t) :
  Child.failed c = false ->
  let item := Child.sending line in
  let prompted := negb prompt
                  || match pexpect.prompts (Child.child c) with
                     | pexpect.matched :: _ => true
                     | _ => false
                     end in
  (pexpect.closed (Child.child c) = false ->
   exists c',
     Child.stdin line prompt timeout c = Return Child.self c'
     /\ Child.failed c' = negb prompted
     /\ pexpect.written (Child.child c')
        = pexpect.written (Child.child c) ++ (if prompted then [item] else [])
     /\ (prompted = true -> Child.payload c' = Child.payload c)
     /\ (prompted = false ->
         message_truthy (Payload.error_message (Child.payload c)) = false ->
         Payload.error_message (Child.payload c')
         = msg_str "expected prompt for input, found none")
     /\ length (Child.test_log c') = S (length (Child.test_log c)))
  /\ (pexpect.closed (Child.child c) = true ->
      exists c',
        Child.stdin line prompt timeout c
        = Raise (if prompt then ValueError else pexpect.send_closed item) c'
        /\ Child.failed c' = false
        /\ Child.child c' = Child.child c
        /\ Child.payload c' = Child.payload c
        /\ length (Child.test_log c') = S (length (Child.test_log c))).
Proof.
  intros Hf item prompted. unfold Child.stdin. rewrite Hf.
  assert (Hfail : forall p,
             pexpect.written p = pexpect.written (Child.child c) ->
             let c' := Child.fail (msg_str "expected prompt for input, found none")
                         (Child.set_child p
                            (Child.log_append
                               match line with
                               | Child.line_EOF => "sending EOF..."
                               | Child.line_str s => "sending input " +:+ s +:+ "..."
                               end c)) in
             Child.failed c' = true
             /\ pexpect.written (Child.child c') = pexpect.written (Child.child c) ++ []
             /\ (false = true -> Child.payload c' = Child.payload c)
             /\ (false = false ->
                 message_truthy (Payload.error_message (Child.payload c)) = false ->
                 Payload.error_message (Child.payload c')
                 = msg_str "expected prompt for input, found none")
             /\ length (Child.test_log c') = S (length (Child.test_log c))).
  { intros p Hp c'. unfold c'.
    destruct (fail_touches_nothing_else (msg_str "expected prompt for input, found none")
                (Child.set_child p
                   (Child.log_append
                      match line with
                      | Child.line_EOF => "sending EOF..."
                      | Child.line_str s => "sending input " +:+ s +:+ "..."
                      end c))) as (Hlog & Hchild & _).
    split; [apply fail_sets_latch|].
    split; [rewrite Hchild; simpl; now rewrite app_nil_r|].
    split; [discriminate|].
    split; [intros _ Hm; now apply fail_records_first|].
    rewrite Hlog. simpl. rewrite length_app. simpl. lia. }
  unfold prompted, item, pexpect.expect, pexpect.send. split.
  - intros Hopen. destruct prompt; simpl; rewrite Hopen.
    + destruct (pexpect.prompts (Child.child c)) as [|[| |] rest]; simpl.
      * eexists. split; [reflexivity|]. now apply Hfail.
      * eexists. split; [reflexivity|]. repeat split; try exact Hf; try discriminate.
        simpl. rewrite length_app. simpl. lia.
      * eexists. split; [reflexivity|]. now apply Hfail.
      * eexists. split; [reflexivity|]. now apply Hfail.
    + eexists. split; [reflexivity|]. repeat split; try exact Hf; try discriminate.
      simpl. rewrite length_app. simpl. lia.
  - intros Hclosed. destruct prompt; simpl; rewrite Hclosed.
    + eexists. split; [reflexivity|]. repeat split; [exact Hf|].
      simpl. rewrite length_app. simpl. lia.
    + eexists. split; [reflexivity|]. repeat split; [exact Hf|].
      simpl. rewrite length_app. simpl. lia.
Qed.

(** The theorem at a process that prompts and at one that closes its
    output instead. *)
Lemma stdin_examples :
  pexpect.written (Child.child (state (Child.stdin (Child.line_str "42") true 3
                                         Examples2.prompting)))
  = [pexpect.sendline "42"]
  /\ pexpect.written (Child.child (state (Child.stdin (Child.line_str "42") true 3
                                            Examples2.mute))) = []
  /\ Child.failed (state (Child.stdin (Child.line_str "42") true 3 Examples2.mute)) = true.
Proof.
  destruct (proj1 (stdin_writes_iff_prompted (Child.line_str "42") true 3
                     Examples2.prompting eq_refl) eq_refl)
    as (c1 & H1 & _ & Hw1 & _).
  destruct (proj1 (stdin_writes_iff_prompted (Child.line_str "42") true 3
                     Examples2.mute eq_refl) eq_refl)
    as (c2 & H2 & Hf2 & Hw2 & _).
  rewrite H1, H2. simpl. split; [exact Hw1 | split; [exact Hw2 | exact Hf2]].
Defined.

(** ** on *)

(** [fail()] with its default message never changes the payload: it writes
    the empty str only over an empty str. *)
Lemma fail_default_keeps_payload (c : Child.t) :
  Child.payload (Child.fail (msg_str EmptyString) c) = Child.payload c.
Proof.
  destruct c as [log p [o e [s|m] h] st]; unfold Child.fail; simpl; [|reflexivity].
  unfold Str.truthy. destruct (String.eqb_spec s EmptyString) as [->|Hne]; reflexivity.
Qed.

Lemma fail_status (m : message) (c : Child.t) :
  Child.status (Child.fail m c) = Status.mk true.
Proof. unfold Child.fail. simpl. now destruct (negb _). Qed.

(** A member is the shared state with its own status. *)
Lemma member_inv (i : nat) (f : Conditional.family) (c : Child.t) :
  Conditional.member i f = Some c ->
  Conditional.statuses f !! i = Some (Child.status c)
  /\ Child.test_log c = Conditional.test_log f
  /\ Child.child c = Conditional.child f
  /\ Child.payload c = Conditional.payload f.
Proof.
  unfold Conditional.member.
  destruct (Conditional.statuses f !! i) as [s|]; [|discriminate].
  intros [= <-]. simpl. repeat split.
Qed.

(** The members after a method has left the one at place [j] as [c]. *)
Lemma member_put (j k : nat) (c : Child.t) (f : Conditional.family) :
  j < length (Conditional.statuses f) ->
  Conditional.member k (Conditional.put j c f)
  = if decide (k = j) then Some c
    else match Conditional.statuses f !! k with
         | Some s => Some (Child.mk (Child.test_log c) (Child.child c) (Child.payload c) s)
         | None => None
         end.
Proof.
  intros Hj. unfold Conditional.member, Conditional.put. simpl.
  destruct (decide (k = j)) as [->|Hne].
  - rewrite list_lookup_insert_eq by exact Hj. now destruct c.
  - rewrite list_lookup_insert_ne by congruence. reflexivity.
Qed.

(** X7.  [on(condition)] makes a new Child that shares the test, the process
    and the payload with the original and has a latch of its own, set
    exactly when the condition does not hold of the original; the original
    and the Childs made before are as they were.  The payload is one object:
    after a method has run on one member of the family, that member is as
    the method left it, and every other member has the log, the process and
    the payload as the method left them, with its own latch.  So when the
    condition holds, as the module-level [fail] does of a failed Child, the
    new Child is not failed and [help] through it records the help message
    in the payload of the original, whose latch stays as it was. *)
Theorem on_shares_payload (condition : Child.t -> bool) (i : nat)
        (f : Conditional.family) (c : Child.t) :
  Conditional.member i f = Some c ->
  let new := length (Conditional.statuses f) in
  exists f',
    Conditional.on condition i f = Some (new, f')
    /\ Conditional.member new f'
       = Some (Child.mk (Child.test_log c) (Child.child c) (Child.payload c)
                 (Status.mk (negb (condition c))))
    /\ (forall j, j < new -> Conditional.member j f' = Conditional.member j f)
    /\ (forall method j cj,
          Conditional.member j f' = Some cj ->
          exists f'',
            Conditional.call method j f'
            = Some match method cj with
                   | Return v _ => Return v f''
                   | Raise e _ => Raise e f''
                   end
            /\ Conditional.member j f'' = Some (state (method cj))
            /\ forall k ck,
                 k <> j ->
                 Conditional.member k f' = Some ck ->
                 Conditional.member k f''
                 = Some (Child.mk (Child.test_log (state (method cj)))
                           (Child.child (state (method cj)))
                           (Child.payload (state (method cj)))
                           (Child.status ck)))
    /\ (forall message,
          condition c = true ->
          exists f'',
            Conditional.call (Child.help message) new f' = Some (Return Child.self f'')
            /\ Conditional.member i f''
               = Some (Child.set_payload
                         (Payload.set_help_message message (Child.payload c)) c)).
Proof.
  intros Hc new.
  destruct (member_inv _ _ _ Hc) as (Hi & Hclog & Hcchild & Hcpay).
  pose proof (lookup_lt_Some _ _ _ Hi) as Hlt. fold new in Hlt.
  set (f1 := Conditional.mk (Conditional.test_log f) (Conditional.child f)
               (Conditional.payload f) (Conditional.statuses f ++ [Status.init])).
  set (c1 := Child.mk (Conditional.test_log f) (Conditional.child f)
               (Conditional.payload f) Status.init).
  assert (Hlen1 : new < length (Conditional.statuses f1)).
  { unfold f1, new. simpl. rewrite length_app. simpl. lia. }
  assert (Hold : forall j, j < new -> Conditional.member j f1 = Conditional.member j f).
  { intros j Hj. unfold Conditional.member, f1. simpl.
    now rewrite lookup_app_l by exact Hj. }
  assert (Hnew1 : Conditional.member new f1 = Some c1).
  { unfold Conditional.member, f1, c1, new. simpl.
    now rewrite list_lookup_middle. }
  set (f' := if negb (condition c)
             then Conditional.put new (Child.fail (msg_str EmptyString) c1) f1
             else f1).
  assert (Hon : Conditional.on condition i f = Some (new, f')).
  { unfold Conditional.on. rewrite Hc. reflexivity. }
  assert (Hnew : Conditional.member new f'
                 = Some (Child.mk (Child.test_log c) (Child.child c) (Child.payload c)
                           (Status.mk (negb (condition c))))).
  { rewrite Hclog, Hcchild, Hcpay. unfold f'. destruct (condition c); simpl.
    - exact Hnew1.
    - rewrite member_put by exact Hlen1. rewrite decide_True by reflexivity.
      f_equal.
      pose proof (fail_default_keeps_payload c1) as Hp.
      pose proof (fail_status (msg_str EmptyString) c1) as Hs.
      destruct (fail_touches_nothing_else (msg_str EmptyString) c1) as (Hl & Hch & _).
      destruct (Child.fail (msg_str EmptyString) c1) as [l p pl st].
      simpl in *. now subst. }
  assert (Hkeep : forall j, j < new -> Conditional.member j f' = Conditional.member j f).
  { intros j Hj. rewrite <- (Hold j Hj). unfold f'. destruct (condition c); simpl;
      [reflexivity|].
    rewrite member_put by exact Hlen1. rewrite decide_False by lia.
    unfold Conditional.member.
    destruct (Conditional.statuses f1 !! j) as [s|]; [|reflexivity].
    f_equal.
    pose proof (fail_default_keeps_payload c1) as Hp.
    destruct (fail_touches_nothing_else (msg_str EmptyString) c1) as (Hl & Hch & _).
    now rewrite Hp, Hl, Hch. }
  assert (Hcall : forall method j cj,
             Conditional.member j f' = Some cj ->
             exists f'',
               Conditional.call method j f'
               = Some match method cj with
                      | Return v _ => Return v f''
                      | Raise e _ => Raise e f''
                      end
               /\ Conditional.member j f'' = Some (state (method cj))
               /\ forall k ck,
                    k <> j ->
                    Conditional.member k f' = Some ck ->
                    Conditional.member k f''
                    = Some (Child.mk (Child.test_log (state (method cj)))
                              (Child.child (state (method cj)))
                              (Child.payload (state (method cj)))
                              (Child.status ck))).
  { intros method j cj Hj.
    destruct (member_inv _ _ _ Hj) as (Hsj & _).
    pose proof (lookup_lt_Some _ _ _ Hsj) as Hjlt.
    exists (Conditional.put j (state (method cj)) f'). split; [|split].
    - unfold Conditional.call. rewrite Hj. now destruct (method cj).
    - rewrite member_put by exact Hjlt. now rewrite decide_True.
    - intros k ck Hne Hk. destruct (member_inv _ _ _ Hk) as (Hsk & _).
      rewrite member_put by exact Hjlt. rewrite decide_False by exact Hne.
      now rewrite Hsk. }
  exists f'. split; [exact Hon|]. split; [exact Hnew|]. split; [exact Hkeep|].
  split; [exact Hcall|].
  intros message Hcond.
  destruct (Hcall (Child.help message) new _ Hnew) as (f'' & Hcl & _ & Hothers).
  rewrite Hcond in Hcl, Hothers. simpl in Hcl, Hothers.
  exists f''. split; [exact Hcl|].
  rewrite (Hothers i c); [now destruct c | lia | now rewrite Hkeep].
Qed.

(** The theorem at the child that failed on a missing prompt: [help] on it
    does nothing, and [help] after [on(fail)] reaches its payload. *)
Lemma on_fail_broken :
  Child.help "print a prompt" Examples.broken = Return Child.self Examples.broken
  /\ exists f' f'',
      Conditional.on Conditional.fail 0 (Conditional.alone Examples.broken) = Some (1, f')
      /\ Conditional.call (Child.help "print a prompt") 1 f' = Some (Return Child.self f'')
      /\ Conditional.member 0 f''
         = Some (Child.set_payload
                   (Payload.set_help_message "print a prompt"
                      (Child.payload Examples.broken)) Examples.broken).
Proof.
  split; [reflexivity|].
  destruct (on_shares_payload Conditional.fail 0 (Conditional.alone Examples.broken)
              Examples.broken eq_refl) as (f' & Hon & _ & _ & _ & Hhelp).
  destruct (Hhelp "print a prompt" eq_refl) as (f'' & Hcall & Hm).
  exists f', f''. split; [exact Hon | split; [exact Hcall | exact Hm]].
Defined.

(** ** What wait stores *)

Section Clean.

Lemma replace_without_cr (s : string) :
  Str.mem Str.CR s = false -> Str.replace Str.crlf Str.newline s = s.
Proof.
  unfold Str.replace. induction s as [|ch s IH]; intros Hcr; [reflexivity|].
  simpl in Hcr. apply orb_false_elim in Hcr as [Hch Hs].
  cbn [Str.replace_from].
  replace (String.prefix Str.crlf (String ch s)) with false.
  - now rewrite (IH Hs).
  - unfold Str.crlf. cbn [String.prefix].
    destruct (ascii_dec Str.CR ch) as [<-|Hne]; [|reflexivity].
    vm_compute in Hch. discriminate.
Qed.

(** [k] newlines. *)
Lemma lstrip_newlines (k : nat) (s : string) :
  Str.startswith s Str.newline = false ->
  Str.lstrip Str.newline (Nat.iter k (String Str.LF) s) = s.
Proof.
  intros Hs. induction k as [|k IH]; simpl.
  - destruct s as [|ch s]; [reflexivity|].
    cbn [Str.lstrip Str.mem Str.newline].
    unfold Str.startswith, Str.newline in Hs. cbn [String.prefix] in Hs.
    destruct (ascii_dec Str.LF ch) as [<-|Hne].
    + destruct s; discriminate Hs.
    + replace (Ascii.eqb ch Str.LF) with false; [reflexivity|].
      symmetry. apply Ascii.eqb_neq. congruence.
  - exact IH.
Qed.

Lemma mem_iter_newlines (k : nat) (s : string) :
  Str.mem Str.CR (Nat.iter k (String Str.LF) s) = Str.mem Str.CR s.
Proof. induction k as [|k IH]; simpl; [reflexivity | exact IH]. Qed.

End Clean.

(** X8.  Output without carriage returns is stored by [wait] with its
    leading newlines removed and nothing else changed: when the chunks read
    join to [k] newlines followed by [s], and [s] has no CR and does not
    start with a newline, the buffer is [s]. *)
Theorem normalize_strips_leading_newlines (out : list string) (k : nat) (s : string) :
  Str.join EmptyString out = Nat.iter k (String Str.LF) s ->
  Str.mem Str.CR s = false ->
  Str.startswith s Str.newline = false ->
  Child.normalize out = s.
Proof.
  intros Hjoin Hcr Hnl. unfold Child.normalize. rewrite Hjoin.
  rewrite replace_without_cr by (now rewrite mem_iter_newlines).
  now apply lstrip_newlines.
Qed.

(** The theorem at output that comes in three chunks after two blank lines. *)
Lemma normalize_example :
  Child.normalize [Str.newline; Str.newline +:+ "Hello, "; "world" +:+ Str.newline]
  = "Hello, world" +:+ Str.newline.
Proof.
  apply (normalize_strips_leading_newlines _ 2 ("Hello, world" +:+ Str.newline));
    reflexivity.
Defined.

(** ** The frames of the program under test *)

Section Paths.

Lemma upto_last_slash_none (s : string) :
  Str.mem Str.SLASH s = false -> Str.upto_last_slash s = EmptyString.
Proof.
  induction s as [|ch s IH]; intros Hs; [reflexivity|].
  cbn [Str.mem] in Hs. apply orb_false_elim in Hs as [Hch Hs].
  cbn [Str.upto_last_slash]. rewrite (IH Hs).
  rewrite Ascii.eqb_sym, Hch. reflexivity.
Qed.

Lemma upto_last_slash_app (a b : string) :
  Str.upto_last_slash (a +:+ String Str.SLASH b)
  = a +:+ String Str.SLASH (Str.upto_last_slash b).
Proof.
  induction a as [|ch a IH].
  - change (EmptyString +:+ String Str.SLASH b) with (String Str.SLASH b).
    cbn [Str.upto_last_slash]. now destruct (Str.upto_last_slash b).
  - change (String ch a +:+ String Str.SLASH b) with (String ch (a +:+ String Str.SLASH b)).
    cbn [Str.upto_last_slash]. rewrite IH.
    now destruct a.
Qed.

Lemma all_slashes_app (a b : string) :
  Str.all_slashes (a +:+ b) = Str.all_slashes a && Str.all_slashes b.
Proof.
  induction a as [|ch a IH]; [reflexivity|].
  change (String ch a +:+ b) with (String ch (a +:+ b)).
  cbn [Str.all_slashes]. rewrite IH. now rewrite andb_assoc.
Qed.

Lemma not_all_slashes (d : string) :
  d <> EmptyString -> Str.ends_with_slash d = false -> Str.all_slashes d = false.
Proof.
  induction d as [|ch d IH]; intros Hne Hend; [now contradiction Hne|].
  cbn [Str.all_slashes]. destruct d as [|ch' d].
  - simpl in Hend. now rewrite Hend.
  - rewrite IH; [apply andb_false_r | discriminate | exact Hend].
Qed.

Lemma rstrip_added_slash (d : string) :
  Str.ends_with_slash d = false -> Str.rstrip "/" (d +:+ "/") = d.
Proof.
  induction d as [|ch d IH]; intros Hend; [reflexivity|].
  change (String ch d +:+ "/") with (String ch (d +:+ "/")).
  cbn [Str.rstrip]. destruct d as [|ch' d].
  - simpl in Hend. change (Str.rstrip "/" (EmptyString +:+ "/")) with EmptyString.
    cbn [Str.mem]. change "/"%char with Str.SLASH. now rewrite Hend.
  - rewrite IH by exact Hend. reflexivity.
Qed.

(** [dirname] undoes [join] with a file name. *)
Lemma dirname_path_join (dir name : string) :
  dir <> EmptyString ->
  Str.ends_with_slash dir = false ->
  Str.mem Str.SLASH name = false ->
  Str.dirname (Str.path_join dir name) = dir.
Proof.
  intros Hne Hend Hname.
  assert (Hjoin : Str.path_join dir name = dir +:+ String Str.SLASH name).
  { unfold Str.path_join, Str.startswith.
    replace (String.prefix "/" name) with false.
    - rewrite (proj2 (String.eqb_neq dir EmptyString) Hne), Hend. reflexivity.
    - destruct name as [|ch name]; [reflexivity|].
      cbn [Str.mem] in Hname. apply orb_false_elim in Hname as [Hch _].
      cbn [String.prefix]. destruct (ascii_dec "/" ch) as [<-|_]; [|reflexivity].
      vm_compute in Hch. discriminate. }
  rewrite Hjoin. unfold Str.dirname.
  rewrite upto_last_slash_app, (upto_last_slash_none name Hname).
  change (dir +:+ String Str.SLASH EmptyString) with (dir +:+ "/").
  rewrite all_slashes_app, (not_all_slashes dir Hne Hend). simpl.
  now apply rstrip_added_slash.
Qed.

End Paths.

(** X9.  The location of a valgrind message is that of the first frame
    whose object is in the directory of the check, and of no other: with
    only outside frames before it, a frame inside gives
    [: (file: F, line: L)] when it has a file and a line and nothing when
    it lacks one, whatever frames follow.  An object [dir/name] is inside
    [dir] ([dir] not empty and without a trailing slash, [name] without a
    slash). *)
Theorem location_first_inside (dir : string) (outs rest : list Checks.frame)
        (f : Checks.frame) :
  Forall (fun g => inside dir g = false) outs ->
  inside dir f = true ->
  Checks.location dir (outs ++ f :: rest)
  = match Checks.file f, Checks.line f with
    | Some fl, Some ln => [": (file: " +:+ fl +:+ ", line: " +:+ ln +:+ ")"]
    | _, _ => []
    end
  /\ (forall name fl ln,
        dir <> EmptyString -> Str.ends_with_slash dir = false ->
        Str.mem Str.SLASH name = false ->
        inside dir {| Checks.obj := Some (Str.path_join dir name);
                      Checks.file := fl; Checks.line := ln |} = true).
Proof.
  intros Houts Hin. split.
  - induction Houts as [|g outs Hg _ IH]; simpl.
    + unfold inside in Hin. destruct (Checks.obj f) as [o|]; [|discriminate].
      now rewrite Hin.
    + unfold inside in Hg. destruct (Checks.obj g) as [o|]; [|exact IH].
      now rewrite Hg.
  - intros name fl ln Hne Hend Hname. unfold inside. simpl.
    rewrite (dirname_path_join dir name Hne Hend Hname). apply String.eqb_refl.
Qed.

(** The theorem at a stack that goes through malloc and the C library into
    the program, whose first frame was compiled without debug information:
    no location, although a second frame of the program has one. *)
Lemma location_first_inside_example :
  Checks.location "/tmp/check50/leaks"
    [Examples.in_malloc; Examples.in_libc;
     {| Checks.obj := Some "/tmp/check50/leaks/hello"; Checks.file := None;
        Checks.line := None |};
     Examples.in_main] = [].
Proof.
  refine (proj1 (location_first_inside "/tmp/check50/leaks"
                   [Examples.in_malloc; Examples.in_libc] [Examples.in_main]
                   {| Checks.obj := Some "/tmp/check50/leaks/hello"; Checks.file := None;
                      Checks.line := None |} _ eq_refl)).
  repeat constructor.
Defined.

(** ** What _check_valgrind raises *)

(** The loop stops at the first error without a kind or a message, with the
    messages composed so far in the log. *)
Lemma scan_stops dir (pre post : list Checks.error) (e : Checks.error) (msgs : list string) :
  Forall2 (fun e m => Checks.compose dir e = Some m) pre msgs ->
  Checks.compose dir e = None ->
  forall log reported,
    Checks.scan dir (pre ++ e :: post) log reported
    = (log ++ filter (fun x => x ∉ reported) (dedupe msgs),
       list_to_set msgs ∪ reported, false).
Proof.
  intros Hpre He. induction Hpre as [|e0 m pre msgs He0 _ IH]; intros log reported.
  - simpl. rewrite He, app_nil_r. f_equal. f_equal. now rewrite (left_id_L ∅ (∪)).
  - cbn [app Checks.scan dedupe]. rewrite He0.
    case_bool_decide as Hin.
    + rewrite IH. rewrite filter_cons_False by tauto.
      rewrite filter_other_after by exact Hin.
      f_equal. f_equal. simpl. apply set_eq. intros x.
      rewrite !elem_of_union, elem_of_singleton.
      split; [tauto | intros [[->|?]|?]; tauto].
    + rewrite IH. rewrite filter_cons_True by exact Hin.
      rewrite filter_fresh. rewrite <- app_assoc. simpl.
      f_equal. f_equal. apply set_eq. intros x.
      rewrite !elem_of_union. tauto.
Qed.

Lemma filter_not_in_empty (reported : gset string) (l : list string) :
  reported = ∅ -> filter (fun x => x ∉ reported) l = l.
Proof.
  intros ->. induction l as [|a l IH]; [reflexivity|].
  rewrite filter_cons_True by apply not_elem_of_empty. now rewrite IH.
Qed.

(** X10.  [_check_valgrind] returns only on a report without errors, having
    logged its header line alone.  On a report with errors that all have a
    kind and a message it raises the [Error]
    [valgrind tests failed; rerun with --log for more information.], which
    fails the check.  When an error lacks its kind or its message element,
    it raises [AttributeError] at that error, with the messages of the
    errors before it in the log. *)
Theorem check_valgrind_outcome (s : Checks.t) :
  Checks._check_valgrind [] s
  = Return tt (Checks.set_log (Checks.log s ++ ["checking for valgrind errors... "]) s)
  /\ (forall e report msgs,
        Forall2 (fun e m => Checks.compose (Checks.dir s) e = Some m) (e :: report) msgs ->
        exists s',
          Checks._check_valgrind (e :: report) s
          = Raise (Error_ "valgrind tests failed; rerun with --log for more information.") s')
  /\ (forall pre e post msgs,
        Forall2 (fun e m => Checks.compose (Checks.dir s) e = Some m) pre msgs ->
        Checks.compose (Checks.dir s) e = None ->
        Checks._check_valgrind (pre ++ e :: post) s
        = Raise AttributeError
            (Checks.set_log
               (Checks.log s ++ ["checking for valgrind errors... "] ++ dedupe msgs) s)).
Proof.
  split; [reflexivity|]. split.
  - intros e report msgs Hmsgs. unfold Checks._check_valgrind.
    cbn [Checks.dir Checks.log Checks.set_log].
    rewrite (scan_dedupe _ _ _ Hmsgs).
    inversion Hmsgs as [|e0 m report0 msgs0 He Hrest]; subst.
    rewrite bool_decide_eq_false_2; [eexists; reflexivity|].
    intros Hempty.
    assert (Hin : m ∈ (list_to_set (m :: msgs0) ∪ ∅ : gset string)).
    { apply elem_of_union_l. simpl. apply elem_of_union_l. now apply elem_of_singleton. }
    rewrite Hempty in Hin. now apply not_elem_of_empty in Hin.
  - intros pre e post msgs Hpre He. unfold Checks._check_valgrind.
    cbn [Checks.dir Checks.log Checks.set_log].
    rewrite (scan_stops _ pre post e msgs Hpre He).
    rewrite filter_not_in_empty by reflexivity. rewrite <- app_assoc. reflexivity.
Qed.

(** The theorem at the report of the examples, and at that report with an
    error without a kind in second place. *)
Lemma check_valgrind_outcome_examples :
  (exists s', Checks._check_valgrind Examples.report Examples.leaks
              = Raise (Error_ "valgrind tests failed; rerun with --log for more information.")
                      s')
  /\ exists s', Checks._check_valgrind
                  [Examples.leak [];
                   {| Checks.kind := None; Checks.what := Some "?"; Checks.xwhat_text := None;
                      Checks.frames := [] |};
                   Examples.invalid_read []] Examples.leaks
                = Raise AttributeError s'.
Proof.
  destruct (check_valgrind_outcome Examples.leaks) as (_ & Hraise & Hstop).
  split.
  - apply (Hraise _ _
             [Str.tab +:+ "40 bytes in 1 blocks are definitely lost: (file: hello.c, line: 7)";
              Str.tab +:+ "Invalid read of size 4";
              Str.tab +:+ "40 bytes in 1 blocks are definitely lost: (file: hello.c, line: 7)"]).
    repeat constructor.
  - eexists.
    apply (Hstop [Examples.leak []] _ [Examples.invalid_read []]
             [Str.tab +:+ "40 bytes in 1 blocks are definitely lost"]).
    + repeat constructor.
    + reflexivity.
Defined.

(** ** require *)

(** X11.  [require] checks its paths in order and stops at the first that
    does not exist: when all exist it returns, with one line in the log for
    each; otherwise it raises the [Error] [P not found] for the first
    missing path [P], with the lines of the paths up to and including [P] in
    the log, and the paths after [P] are not looked at. *)
Theorem require_first_missing (exists_ : string -> bool) (s : Checks.t) :
  let line := fun path => "Checking that " +:+ path +:+ " exists..." in
  (forall paths,
      Forall (fun path => exists_ path = true) paths ->
      Methods.require exists_ paths s
      = Return tt (Checks.set_log (Checks.log s ++ map line paths) s))
  /\ (forall pre path post,
        Forall (fun path => exists_ path = true) pre ->
        exists_ path = false ->
        Methods.require exists_ (pre ++ path :: post) s
        = Raise (Error_ (path +:+ " not found"))
                (Checks.set_log (Checks.log s ++ map line (pre ++ [path])) s)).
Proof.
  intros line. split.
  - intros paths Hall. revert s. induction Hall as [|path paths Hp _ IH]; intros s.
    + simpl. rewrite app_nil_r. now destruct s.
    + cbn [Methods.require map]. rewrite Hp, IH.
      cbn [Checks.log Checks.set_log]. rewrite <- app_assoc. reflexivity.
  - intros pre path post Hall Hmiss. revert s.
    induction Hall as [|path0 pre Hp _ IH]; intros s.
    + cbn [app Methods.require map]. now rewrite Hmiss.
    + cbn [app Methods.require map]. rewrite Hp, IH.
      cbn [Checks.log Checks.set_log]. rewrite <- app_assoc. reflexivity.
Qed.

(** The theorem at three paths of which the second is missing. *)
Lemma require_example :
  Methods.require (fun path => String.eqb path "hello.c") ["hello.c"; "Makefile"; "hello.h"]
                  (Checks.init "exists")
  = Raise (Error_ "Makefile not found")
          (Checks.set_log ["Checking that hello.c exists..."; "Checking that Makefile exists..."]
                          (Checks.init "exists")).
Proof.
  exact (proj2 (require_first_missing (fun path => String.eqb path "hello.c")
                  (Checks.init "exists"))
           ["hello.c"] "Makefile" ["hello.h"] ltac:(repeat constructor) eq_refl).
Defined.

(** ** tearDown *)

Lemma tearDown_loop_all (turns : nat) (s : Checks.t) (killed : list Child.t) :
  length (Checks.children s) <= turns ->
  Methods.tearDown_loop turns s killed
  = (Checks.set_children [] s, killed ++ map Child.kill (rev (Checks.children s))).
Proof.
  revert s killed. induction turns as [|n IH]; intros s killed Hlen.
  - destruct s as [nm r ra h l ch d]. simpl in *.
    destruct ch; [|simpl in Hlen; lia]. simpl. now rewrite app_nil_r.
  - cbn [Methods.tearDown_loop].
    destruct s as [nm r ra h l ch d]. cbn [Checks.children] in *.
    destruct ch as [|c ch _] using rev_ind.
    + simpl. now rewrite app_nil_r.
    + rewrite last_snoc, removelast_last. rewrite IH.
      * cbn [Checks.set_children Checks.children]. rewrite rev_unit. simpl.
        now rewrite <- app_assoc.
      * cbn [Checks.set_children Checks.children]. rewrite length_app in Hlen.
        simpl in Hlen. lia.
Qed.

(** X12.  [tearDown] kills every child of the test, the last spawned first,
    and leaves [self.children] empty: each child is closed, with its payload,
    status and log as they were, and nothing else of the test object
    changes. *)
Theorem tearDown_kills_all (s : Checks.t) :
  fst (Methods.tearDown s) = Checks.set_children [] s
  /\ snd (Methods.tearDown s) = map Child.kill (rev (Checks.children s))
  /\ Forall (fun c => pexpect.closed (Child.child c) = true) (snd (Methods.tearDown s))
  /\ Forall2 (fun c k => Child.payload k = Child.payload c
                         /\ Child.status k = Child.status c
                         /\ Child.test_log k = Child.test_log c)
             (rev (Checks.children s)) (snd (Methods.tearDown s)).
Proof.
  unfold Methods.tearDown. rewrite tearDown_loop_all by lia. simpl.
  repeat split.
  - apply Forall_forall. intros k Hk. apply list_elem_of_fmap in Hk as (c & -> & _).
    reflexivity.
  - induction (rev (Checks.children s)) as [|c l IH]; simpl; constructor; auto.
Qed.

(** ** The wrapper of check: what it stores and what escapes *)

(** What the wrapper returns is stored. *)
Lemma check_return_stored (dependency : option string) (name : string)
      (func : body) (w w' : world) :
  check dependency name func w = Return tt w' ->
  test_results w' !! name = Some (Checks.result (this w')).
Proof.
  unfold check. destruct (blocked _ _).
  - intros [= <-]. simpl. apply lookup_insert_eq.
  - destruct (copytree _ _ _) as [dirs|]; [|discriminate].
    destruct (attempt _ _) as [v w1|[r h res ctx| | | | | |] w1];
      try discriminate; intros [= <-]; simpl; apply lookup_insert_eq.
Qed.

(** The wrapper past its gate and the copy of the directory. *)
Lemma check_runs (dependency : option string) (name : string) (func : body)
      (w : world) (dirs : gset string) :
  let dst := Str.path_join (tempdir w) (Checks._testMethodName (this w)) in
  blocked dependency (test_results w) = false ->
  copytree (Str.path_join (tempdir w) (dependency_or dependency)) dst (directories w)
  = Some dirs ->
  check dependency name func w
  = match attempt func
            (set_cwd dst (set_directories dirs (set_this (Checks.set_dir dst (this w)) w))) with
    | Raise (Error rationale helpers result _) w2 =>
        Return tt (store name result
                     (set_this (Checks.set_helpers helpers
                                  (Checks.set_rationale rationale (this w2))) w2))
    | Raise e w2 => Raise e w2
    | Return _ w2 => Return tt (store name PASS w2)
    end.
Proof.
  intros dst Hgate Hcopy. unfold check. rewrite Hgate. simpl. fold dst.
  rewrite Hcopy. reflexivity.
Qed.

(** X13.  Whenever the wrapper of [check] returns, the result it has set on
    the test object is the one stored under the name of the check in
    [config.test_results].  An [Error] never escapes it: what it raises is
    an exception of another kind, from the body or from the copy of the
    directory. *)
Theorem check_stores_result (dependency : option string) (name : string)
        (func : body) (w : world) :
  (forall w', check dependency name func w = Return tt w' ->
              test_results w' !! name = Some (Checks.result (this w')))
  /\ (forall e w', check dependency name func w = Raise e w' ->
                   forall rationale helpers result context,
                     e <> Error rationale helpers result context).
Proof.
  split; [intros w'; apply check_return_stored|].
  unfold check. intros e w'. destruct (blocked _ _); [discriminate|].
  destruct (copytree _ _ _) as [dirs|].
  - destruct (attempt _ _) as [v w1|[r h res ctx| | | | | |] w1];
      try discriminate; intros [= <- _]; discriminate.
  - intros [= <- _]. discriminate.
Qed.

(** X14.  A check that ends without PASS blocks the checks that depend on
    it: when the wrapper of the check [name] has returned with a result
    other than PASS, a check that declares [name] as its dependency, run in
    any later state where the entry of [name] is still the same, is SKIP and
    its body is not run. *)
Theorem failed_check_blocks_dependents
        (dependency : option string) (name : string) (func : body) (w w1 : world)
        (name2 : string) (func2 : body) (w2 : world) :
  name <> EmptyString ->
  check dependency name func w = Return tt w1 ->
  Checks.result (this w1) <> PASS ->
  test_results w2 !! name = test_results w1 !! name ->
  exists w3,
    (forall func', check (Some name) name2 func' w2 = Return tt w3)
    /\ Checks.result (this w3) = SKIP
    /\ test_results w3 !! name2 = Some SKIP
    /\ directories w3 = directories w2
    /\ Checks.children (this w3) = Checks.children (this w2).
Proof.
  intros Hname Hcheck Hres Hsame.
  pose proof (check_return_stored dependency name func w w1 Hcheck) as Hstored.
  assert (Hblocked : blocked (Some name) (test_results w2) = true).
  { apply (blocked_iff name (test_results w2) Hname). rewrite Hsame, Hstored. congruence. }
  eexists. unfold check. rewrite Hblocked.
  split; [reflexivity|]. repeat split. simpl. apply lookup_insert_eq.
Qed.

(** The theorem along a chain of three checks, each on a test object of its
    own: [links] fails on its last child, so [runs], which depends on it, is
    skipped, and so is [prints], which depends on [runs]. *)
Lemma failed_check_blocks_chain :
  let w0 := Examples.run "links" in
  let w1 := state (check (Some "exists") "links" (Examples.leaves [Examples.broken]) w0) in
  let w2 := state (check (Some "links") "runs" (Examples.leaves [])
                     (set_this (Checks.init "runs") w1)) in
  let w3 := state (check (Some "runs") "prints" (Examples.leaves [])
                     (set_this (Checks.init "prints") w2)) in
  Checks.result (this w1) = FAIL
  /\ Checks.result (this w2) = SKIP
  /\ Checks.result (this w3) = SKIP.
Proof.
  intros w0 w1 w2 w3.
  assert (H1 : check (Some "exists") "links" (Examples.leaves [Examples.broken]) w0
               = Return tt w1) by (vm_compute; reflexivity).
  assert (Hr1 : Checks.result (this w1) = FAIL) by (vm_compute; reflexivity).
  destruct (failed_check_blocks_dependents (Some "exists") "links"
              (Examples.leaves [Examples.broken]) w0 w1
              "runs" (Examples.leaves []) (set_this (Checks.init "runs") w1)
              ltac:(discriminate) H1 ltac:(rewrite Hr1; discriminate) eq_refl)
    as (w2' & H2 & Hr2 & _).
  assert (Hw2 : w2 = w2') by (unfold w2; now rewrite H2).
  destruct (failed_check_blocks_dependents (Some "links") "runs"
              (Examples.leaves []) (set_this (Checks.init "runs") w1) w2
              "prints" (Examples.leaves []) (set_this (Checks.init "prints") w2)
              ltac:(discriminate) ltac:(rewrite Hw2; apply H2)
              ltac:(rewrite Hw2, Hr2; discriminate) eq_refl)
    as (w3' & H3 & Hr3 & _).
  assert (Hw3 : w3 = w3') by (unfold w3; now rewrite H3).
  split; [exact Hr1 | split; [rewrite Hw2; exact Hr2 | rewrite Hw3; exact Hr3]].
Defined.

(** X15.  A check that is not blocked copies its directory before anything
    else: when the directory it copies from (that of the dependency, or [_])
    does not exist, or its own directory exists already, the wrapper raises
    [OSError] with only [self.dir] set; the body is not run and no result is
    stored. *)
Theorem check_needs_its_directories (dependency : option string) (name : string)
        (func : body) (w : world) :
  let dst := Str.path_join (tempdir w) (Checks._testMethodName (this w)) in
  let src := Str.path_join (tempdir w) (dependency_or dependency) in
  blocked dependency (test_results w) = false ->
  src ∉ directories w \/ dst ∈ directories w ->
  check dependency name func w
  = Raise OSError (set_this (Checks.set_dir dst (this w)) w)
  /\ test_results (state (check dependency name func w)) = test_results w
  /\ Checks.result (this (state (check dependency name func w))) = Checks.result (this w).
Proof.
  intros dst src Hgate Hdirs.
  assert (Hcopy : copytree src dst (directories w) = None).
  { unfold copytree. destruct Hdirs as [Hsrc|Hdst].
    - now rewrite (bool_decide_eq_false_2 _ Hsrc).
    - rewrite (bool_decide_eq_true_2 _ Hdst). simpl. now rewrite andb_false_r. }
  unfold check. rewrite Hgate. cbn [tempdir set_this directories this].
  fold dst. fold src. rewrite Hcopy. repeat split.
Qed.

(** The theorem at a check whose dependency passed but whose own directory
    is there already. *)
Lemma check_needs_its_directories_example :
  check (Some "exists") "compiles" (Examples.leaves []) (Examples.run "compiles")
  = Raise OSError (set_this (Checks.set_dir "/tmp/check50/compiles"
                               (this (Examples.run "compiles")))
                            (Examples.run "compiles")).
Proof.
  refine (proj1 (check_needs_its_directories (Some "exists") "compiles" (Examples.leaves [])
                   (Examples.run "compiles") _ _)).
  - vm_compute. reflexivity.
  - right. vm_compute. reflexivity.
Defined.

(** ** The valgrind decorator *)

(** X16.  The wrapper of [valgrind]:
    - without valgrind installed it raises an [Error] whose result is SKIP,
      before the body runs and before [_valgrind] is set; under [check] (the
      gate open, the directory copied) this makes the check SKIP with the
      rationale [valgrind not installed];
    - with valgrind installed the body runs with [_valgrind] set, and
      [_valgrind] is unset again when the wrapper ends, whether the body
      returned or raised and whatever the report;
    - an exception of the body passes through, and the report is then not
      read. *)
Theorem valgrind_wrapper (installed : bool) (xml : vworld -> list Checks.error)
        (func : vbody) (v : vworld) :
  (installed = false ->
   Methods.valgrind installed xml func v
   = Raise (Error (Some (msg_str "valgrind not installed")) None SKIP None) v)
  /\ (installed = true ->
      _valgrind (state (Methods.valgrind installed xml func v)) = false)
  /\ (installed = true ->
      forall e v', func (set_valgrind true v) = Raise e v' ->
                   Methods.valgrind installed xml func v = Raise e (set_valgrind false v'))
  /\ (installed = false ->
      forall dependency name w dirs,
        blocked dependency (test_results w) = false ->
        copytree (Str.path_join (tempdir w) (dependency_or dependency))
                 (Str.path_join (tempdir w) (Checks._testMethodName (this w)))
                 (directories w) = Some dirs ->
        exists w',
          check dependency name (lower (Methods.valgrind installed xml func)) w = Return tt w'
          /\ Checks.result (this w') = SKIP
          /\ Checks.rationale (this w') = Some (msg_str "valgrind not installed")
          /\ test_results w' = <[name := SKIP]> (test_results w)
          /\ Checks.children (this w') = Checks.children (this w)).
Proof.
  unfold Methods.valgrind. split; [|split; [|split]].
  - intros ->. reflexivity.
  - intros ->. simpl.
    destruct (func (set_valgrind true v)) as [u v1|e v1]; [|reflexivity].
    destruct (Checks._check_valgrind _ _); reflexivity.
  - intros -> e v' Hf. simpl. now rewrite Hf.
  - intros -> dependency name w dirs Hgate Hcopy.
    unfold check. rewrite Hgate. cbn [tempdir set_this directories this].
    rewrite Hcopy. unfold attempt, lower. simpl.
    eexists. split; [reflexivity|]. repeat split.
Qed.

(** The theorem at a check under valgrind on a machine without it. *)
Lemma valgrind_wrapper_example :
  Checks.result
    (this (state (check (Some "exists") "leaks"
                    (lower (Methods.valgrind false (fun _ => Examples.report) Examples2.idle))
                    (Examples.run "leaks")))) = SKIP.
Proof.
  destruct (proj2 (proj2 (proj2 (valgrind_wrapper false (fun _ => Examples.report)
                                   Examples2.idle (mk_vworld (Examples.run "leaks") false))))
              eq_refl (Some "exists") "leaks" (Examples.run "leaks")
              ({["/tmp/check50/leaks"]} ∪ directories (Examples.run "leaks"))
              ltac:(vm_compute; reflexivity) ltac:(vm_compute; reflexivity))
    as (w' & Hc & Hr & _).
  rewrite Hc. exact Hr.
Defined.

(** X17.  [@valgrind] has to stand below [@check].  Applied to a function
    that [@check] has just declared (the wrapper keeps the name of the
    function) it raises [InternalError]; applied when no check has been
    declared yet it raises [IndexError], from [config.test_cases[-1]] on the
    empty list; applied after a check of another name it decorates, and
    [@check] above it then declares the function as the last test case. *)
Theorem valgrind_below_check (test_cases : list string) (name : string)
        (frame_name : string) (lineno : Z) (file_name : string) :
  (exists msg,
      valgrind_declares (check_declares test_cases name) name frame_name lineno file_name
      = raises_InternalError msg)
  /\ valgrind_declares [] name frame_name lineno file_name = raises_IndexError
  /\ (forall earlier other,
        test_cases = earlier ++ [other] -> other <> name ->
        valgrind_declares test_cases name frame_name lineno file_name = decorated
        /\ last (check_declares test_cases name) = Some name).
Proof.
  unfold valgrind_declares, check_declares. split; [|split].
  - rewrite last_snoc, String.eqb_refl. eexists. reflexivity.
  - reflexivity.
  - intros earlier other -> Hne. rewrite !last_snoc.
    now rewrite (proj2 (String.eqb_neq other name) Hne).
Qed.

(** The theorem at a file whose second check is under valgrind. *)
Lemma valgrind_below_check_example :
  valgrind_declares ["exists"] "leaks" "Hello" 12 "__init__.py" = decorated.
Proof.
  exact (proj1 (proj2 (proj2 (valgrind_below_check ["exists"] "leaks" "Hello" 12 "__init__.py"))
                  [] "exists" eq_refl ltac:(discriminate))).
Defined.

(** ** The identifier of a check *)

Section Splitting.

Lemma mem_append (ch : ascii) (a b : string) :
  Str.mem ch (a +:+ b) = Str.mem ch a || Str.mem ch b.
Proof.
  induction a as [|x a IH]; [reflexivity|].
  change (String x a +:+ b) with (String x (a +:+ b)).
  cbn [Str.mem]. rewrite IH. apply orb_assoc.
Qed.

Lemma split_none (sep : ascii) (s : string) :
  Str.mem sep s = false -> Identifier.split sep s = [s].
Proof.
  induction s as [|ch s IH]; intros Hs; [reflexivity|].
  cbn [Str.mem] in Hs. apply orb_false_elim in Hs as [Hch Hs].
  cbn [Identifier.split]. rewrite Ascii.eqb_sym, Hch, (IH Hs). reflexivity.
Qed.

Lemma split_at (sep : ascii) (a b : string) :
  Str.mem sep a = false ->
  Identifier.split sep (a +:+ String sep b) = a :: Identifier.split sep b.
Proof.
  induction a as [|ch a IH]; intros Ha.
  - change (EmptyString +:+ String sep b) with (String sep b).
    cbn [Identifier.split]. now rewrite Ascii.eqb_refl.
  - cbn [Str.mem] in Ha. apply orb_false_elim in Ha as [Hch Ha].
    change (String ch a +:+ String sep b) with (String ch (a +:+ String sep b)).
    cbn [Identifier.split]. rewrite Ascii.eqb_sym, Hch, (IH Ha). reflexivity.
Qed.

Lemma replace_slash_by_slash (s : string) : Str.replace "/" "/" s = s.
Proof.
  unfold Str.replace. induction s as [|ch s IH]; [reflexivity|].
  cbn [Str.replace_from String.prefix].
  destruct (ascii_dec "/" ch) as [<-|Hne].
  - replace (String.prefix EmptyString s) with true by (now destruct s).
    simpl. now rewrite IH.
  - now rewrite IH.
Qed.

End Splitting.

(** X18.  [import_checks] takes an identifier [slug@org/repo] apart into
    exactly these three parts ([slug] without [@], [org] and [repo] without
    [@] and [/]) and looks for the checks in [checkdir/org/repo/slug/check50].
    An identifier without [@] is a slug of the repository [cs50/checks].  A
    repository part without a slash is refused with an [InternalError] that
    quotes it.  An identifier with two [@] is not refused: it is taken whole
    as a slug of [cs50/checks]. *)
Theorem locate_identifier (checkdir : string) :
  let place_of := fun slug org repo =>
    let root := Str.path_join (Str.path_join checkdir org) repo in
    Identifier.found
      (Identifier.mk_place slug org repo root
         (Str.path_join (Str.path_join root slug) "check50")) in
  (forall slug org repo,
      Str.mem "@" slug = false -> Str.mem "@" org = false -> Str.mem "@" repo = false ->
      Str.mem "/" org = false -> Str.mem "/" repo = false ->
      Identifier.locate checkdir (slug +:+ String "@" (org +:+ String "/" repo))
      = place_of slug org repo)
  /\ (forall slug,
        Str.mem "@" slug = false ->
        Identifier.locate checkdir slug = place_of slug "cs50" "checks")
  /\ (forall slug repo,
        Str.mem "@" slug = false -> Str.mem "@" repo = false -> Str.mem "/" repo = false ->
        Identifier.locate checkdir (slug +:+ String "@" repo)
        = Identifier.InternalError
            ("expected repository to be of the form username/repository, but got "
               +:+ Str.quote +:+ repo +:+ Str.quote))
  /\ (forall a b c,
        Str.mem "@" a = false -> Str.mem "@" b = false -> Str.mem "@" c = false ->
        Identifier.locate checkdir (a +:+ String "@" (b +:+ String "@" c))
        = place_of (a +:+ String "@" (b +:+ String "@" c)) "cs50" "checks").
Proof.
  intros place_of. unfold place_of, Identifier.locate. split; [|split; [|split]].
  - intros slug org repo Hs Ho Hr Ho' Hr'.
    rewrite (split_at "@" slug _ Hs).
    rewrite (split_none "@" (org +:+ String "/" repo)).
    2:{ rewrite mem_append. cbn [Str.mem]. rewrite Ho, Hr. reflexivity. }
    rewrite (split_at "/" org _ Ho'), (split_none "/" repo Hr').
    now rewrite replace_slash_by_slash.
  - intros slug Hs. rewrite (split_none "@" slug Hs).
    change (Identifier.split "/" "cs50/checks") with ["cs50"; "checks"].
    now rewrite replace_slash_by_slash.
  - intros slug repo Hs Hr Hr'.
    rewrite (split_at "@" slug _ Hs), (split_none "@" repo Hr), (split_none "/" repo Hr').
    reflexivity.
  - intros a b c Ha Hb Hc.
    rewrite (split_at "@" a _ Ha), (split_at "@" b _ Hb), (split_none "@" c Hc).
    change (Identifier.split "/" "cs50/checks") with ["cs50"; "checks"].
    now rewrite replace_slash_by_slash.
Qed.

(** The theorem at an identifier with a repository. *)
Lemma locate_identifier_example :
  Identifier.locate "/home/me/.local/share/check50" "2018/x/hello@cs50/checks50"
  = Identifier.found
      (Identifier.mk_place "2018/x/hello" "cs50" "checks50"
         "/home/me/.local/share/check50/cs50/checks50"
         "/home/me/.local/share/check50/cs50/checks50/2018/x/hello/check50").
Proof.
  exact (proj1 (locate_identifier "/home/me/.local/share/check50")
           "2018/x/hello" "cs50" "checks50" eq_refl eq_refl eq_refl eq_refl eq_refl).
Defined.

(** X19.  Offline, [check_dir] is joined from [checks_root], the slug and
    [check50], and the slug is itself [checkdir/identifier]: when [checkdir]
    is absolute the slug replaces what is joined before it, and the checks
    are looked for in [checkdir/identifier/check50]. *)
Theorem locate_offline_absolute (checkdir identifier : string) :
  Str.startswith checkdir "/" = true ->
  Str.startswith identifier "/" = false ->
  Identifier.locate_offline checkdir identifier
  = (Str.path_join checkdir identifier,
     Str.path_join (Str.path_join checkdir identifier) "check50").
Proof.
  intros Habs Hrel. unfold Identifier.locate_offline.
  rewrite replace_slash_by_slash. f_equal. f_equal.
  assert (Hslug : Str.startswith (Str.path_join checkdir identifier) "/" = true).
  { unfold Str.path_join. rewrite Hrel.
    destruct checkdir as [|ch d]; [discriminate Habs|].
    unfold Str.startswith in *. cbn [String.prefix] in Habs.
    destruct (ascii_dec "/" ch) as [<-|]; [|discriminate Habs].
    assert (Hhead : forall t, String.prefix "/" (String "/" t) = true).
    { intros t. cbn [String.prefix].
      destruct (ascii_dec "/" "/") as [_|Hne]; [now destruct t | now contradiction Hne]. }
    destruct (String.eqb _ _ || _);
      [change (String "/" d +:+ identifier) with (String "/" (d +:+ identifier))
      |change (String "/" d +:+ "/" +:+ identifier)
         with (String "/" (d +:+ "/" +:+ identifier))];
      apply Hhead. }
  unfold Str.path_join at 1. now rewrite Hslug.
Qed.

(** The theorem at a directory of checks under the home directory. *)
Lemma locate_offline_example :
  Identifier.locate_offline "/home/me/checks" "hello"
  = ("/home/me/checks/hello", "/home/me/checks/hello/check50").
Proof.
  exact (locate_offline_absolute "/home/me/checks" "hello" eq_refl eq_refl).
Defined.

(** ** diff *)

(** X20.  [diff] never returns whether the files differ: it spawns the
    [diff] command as a new last child and waits for it, and then either
    [wait] raises (its timeout [Error], or a [UnicodeDecodeError]) or the
    reading of [.status.exit] raises [AttributeError].  For a process that
    goes away before the deadline with decodable output it is the
    [AttributeError]. *)
Theorem diff_never_returns (quote : string -> string) (launch : string -> pexpect.spawn)
        (f1 f2 : path_arg) (v : vworld) :
  let cmd := "diff " +:+ quote (path_name f1) +:+ " " +:+ quote (path_name f2) in
  let proc := pexpect.started
                (launch (Methods.command_line quote (_valgrind v)
                           (Checks.dir (this (plain v))) cmd)) in
  (exists e v',
      Methods.diff quote launch f1 f2 v = Raise e v'
      /\ (e = AttributeError \/ e = UnicodeDecodeError
          \/ e = Error (Some (msg_str "timed out while waiting for program to exit"))
                       None FAIL (Some 5))
      /\ length (Checks.children (this (plain v')))
         = S (length (Checks.children (this (plain v)))))
  /\ (forall p out out' rest,
        Child.poll 5 proc [] = (Child.poll_break, p, out) ->
        Child.drain (pexpect.pipe p) out = (Some out', rest) ->
        exists v', Methods.diff quote launch f1 f2 v = Raise AttributeError v').
Proof.
  intros cmd proc. unfold Methods.diff, Methods.spawn. fold cmd. cbv zeta.
  cbn [Checks.dir Checks.set_log Checks.log]. fold proc.
  set (c := Child.init _ proc).
  assert (Hlen : forall c', length (Checks.children
                                      (this (plain (Methods.set_last_child c'
                                         (set_plain
                                            (set_this
                                               (Checks.set_children
                                                  (Checks.children
                                                     (Checks.set_log
                                                        (Checks.log (this (plain v))
                                                           ++ [if _valgrind v
                                                               then "running valgrind " +:+ cmd +:+ "..."
                                                               else "running " +:+ cmd +:+ "..."])
                                                        (this (plain v))) ++ [c])
                                                  (Checks.set_log
                                                     (Checks.log (this (plain v))
                                                        ++ [if _valgrind v
                                                            then "running valgrind " +:+ cmd +:+ "..."
                                                            else "running " +:+ cmd +:+ "..."])
                                                     (this (plain v))))
                                               (plain v)) v)))))
                        = S (length (Checks.children (this (plain v))))).
  { intros c'. simpl. rewrite removelast_last, !length_app. simpl. lia. }
  split.
  - destruct (Child.wait 5 c) as [val c'|e c'] eqn:Hw.
    + eexists _, _. split; [reflexivity|]. split; [now left | apply Hlen].
    + eexists _, _. split; [reflexivity|]. split; [|apply Hlen].
      destruct (wait_raises _ _ _ _ Hw)
        as (_ & _ & _ & [(-> & _)|[(-> & _)|(_ & Hclosed & _)]]); auto.
      discriminate Hclosed.
  - intros p out out' rest Hp Hd.
    pose proof (wait_collected 5 c p out out' rest eq_refl Hp Hd) as Hw. cbv zeta in Hw.
    rewrite Hw. case_bool_decide; eexists; reflexivity.
Qed.

(** The theorem at two equal files. *)
Lemma diff_example :
  exists v',
    Methods.diff Examples2.quote Examples2.launch
                 (path_str "out.txt") (path_File Examples.expected_txt)
                 (mk_vworld (Examples.run "compare") false)
    = Raise AttributeError v'.
Proof.
  exact (proj2 (diff_never_returns Examples2.quote Examples2.launch
                  (path_str "out.txt") (path_File Examples.expected_txt)
                  (mk_vworld (Examples.run "compare") false))
           _ [] [] [] eq_refl eq_refl).
Defined.

(** ** What the user sees *)

Lemma print_results_snoc `{Python} (results : list Report.entry) (r : Report.entry)
      (with_log : bool) :
  Report.print_results (results ++ [r]) with_log
  = Report.print_results results with_log ++ Report.print_result with_log r.
Proof.
  unfold Report.print_results. rewrite map_app, concat_app. simpl.
  now rewrite app_nil_r.
Qed.

(** X21.  What [print_results] shows for a check once [addSuccess] has
    recorded it, without the log:
    - a check blocked by its dependency shows two yellow lines, the
      description and [can't check until a frown turns upside down];
    - a check that failed on its last child shows three red lines: the
      description, the error message of the child (a Mismatch as
      [expected .., not ..]) and the help message of the child.  The third
      line is there even when no help was given: the message is then the
      empty str, not [None], and the line is blank. *)
Theorem what_print_results_shows `{Python}
        (description : option string) (results : list Report.entry) (name : string)
        (func : body) (w : world) :
  (forall d,
      d <> EmptyString -> test_results w !! d <> Some PASS ->
      Report.print_results
        (Report.addSuccess description (this (state (check (Some d) name func w))) results)
        false
      = Report.print_results results false
          ++ [Report.cprint (":| " +:+ Report.format_description description) "yellow";
              Report.cprint "    can't check until a frown turns upside down" "yellow"])
  /\ (forall dependency dirs w1 earlier c,
        blocked dependency (test_results w) = false ->
        copytree (Str.path_join (tempdir w) (dependency_or dependency))
                 (Str.path_join (tempdir w) (Checks._testMethodName (this w)))
                 (directories w) = Some dirs ->
        func (set_cwd (Str.path_join (tempdir w) (Checks._testMethodName (this w)))
                (set_directories dirs
                   (set_this (Checks.set_dir
                                (Str.path_join (tempdir w) (Checks._testMethodName (this w)))
                                (this w)) w)))
        = Return tt w1 ->
        Checks.children (this w1) = earlier ++ [c] ->
        Child.failed c = true ->
        Report.print_results
          (Report.addSuccess description (this (state (check dependency name func w))) results)
          false
        = Report.print_results results false
            ++ [Report.cprint (":( " +:+ Report.format_description description) "red";
                Report.cprint ("    " +:+ Report.format_message
                                           (Payload.error_message (Child.payload c))) "red";
                Report.cprint ("    " +:+ Payload.help_message (Child.payload c)) "red"]).
Proof.
  split.
  - intros d Hd Hres. apply (blocked_iff d (test_results w) Hd) in Hres.
    unfold check. rewrite Hres. unfold Report.addSuccess.
    rewrite print_results_snoc. reflexivity.
  - intros dependency dirs w1 earlier c Hgate Hcopy Hbody Hch Hf.
    rewrite (check_runs dependency name func w dirs Hgate Hcopy).
    unfold attempt. rewrite Hbody, Hch, last_snoc, Hf.
    unfold Report.addSuccess. rewrite print_results_snoc. reflexivity.
Qed.

(** The theorem at a check that fails on a child without help. *)
Lemma what_print_results_shows_example :
  @Report.print_results Ascii_python.python
    (Report.addSuccess (Some "prints hello")
       (this (state (check None "prints_hello" (Examples.leaves [Examples.broken])
                       (Examples.run "prints_hello")))) [])
    false
  = [Report.cprint ":( prints hello" "red";
     Report.cprint "    expected prompt for input, found none" "red";
     Report.cprint "    " "red"].
Proof.
  exact (proj2 (@what_print_results_shows Ascii_python.python (Some "prints hello") []
                  "prints_hello" (Examples.leaves [Examples.broken])
                  (Examples.run "prints_hello"))
           None ({["/tmp/check50/prints_hello"]} ∪ directories (Examples.run "prints_hello"))
           _ [] Examples.broken
           ltac:(vm_compute; reflexivity) ltac:(vm_compute; reflexivity)
           eq_refl eq_refl eq_refl).
Defined.

(** ** Timeouts *)

(** X22.  A timeout is reported by an exception, not by the latch.  On a
    Child that has not failed and whose process holds out at every turn up
    to the deadline, [stdout] and [exit] raise the [Error]
    [timed out while waiting for program to exit] and leave the latch unset
    and the payload as it was.  A body that lets an [Error] escape gives the
    check the result, the rationale and the helpers of that [Error]: so the
    timeout makes the check FAIL with that rationale, whatever the latch of
    the last child. *)
Theorem timeout_fails_check `{Python} (timeout : nat) (c : Child.t) :
  let timed_out := Error (Some (msg_str "timed out while waiting for program to exit"))
                         None FAIL (Some timeout) in
  Child.failed c = false ->
  (forall i, i <= timeout -> holds_out (Child.child c) i) ->
  (exists c',
      (forall output str_output, Child.stdout output str_output timeout c = Raise timed_out c')
      /\ (forall code, Child.exit code timeout c = Raise timed_out c')
      /\ Child.failed c' = false
      /\ Child.payload c' = Child.payload c)
  /\ (forall dependency name func w dirs w1,
        blocked dependency (test_results w) = false ->
        copytree (Str.path_join (tempdir w) (dependency_or dependency))
                 (Str.path_join (tempdir w) (Checks._testMethodName (this w)))
                 (directories w) = Some dirs ->
        func (set_cwd (Str.path_join (tempdir w) (Checks._testMethodName (this w)))
                (set_directories dirs
                   (set_this (Checks.set_dir
                                (Str.path_join (tempdir w) (Checks._testMethodName (this w)))
                                (this w)) w)))
        = Raise timed_out w1 ->
        exists w',
          check dependency name func w = Return tt w'
          /\ Checks.result (this w') = FAIL
          /\ Checks.rationale (this w')
             = Some (msg_str "timed out while waiting for program to exit")
          /\ Checks.helpers (this w') = None
          /\ test_results w' !! name = Some FAIL).
Proof.
  intros timed_out Hf Hold. split.
  - assert (Hpoll : fst (fst (Child.poll timeout (Child.child c) [])) = Child.poll_else).
    { apply poll_else_iff. intros i Hi. apply Hold. lia. }
    destruct (Child.poll timeout (Child.child c) []) as [[how p] out] eqn:Hp.
    simpl in Hpoll. subst how.
    pose proof (wait_deadline timeout c p out Hp) as Hw.
    exists (Child.set_child p c). repeat split.
    + intros output str_output. unfold Child.stdout. now rewrite Hf, Hw.
    + intros code. unfold Child.exit. now rewrite Hf, Hw.
    + exact Hf.
  - intros dependency name func w dirs w1 Hgate Hcopy Hbody.
    rewrite (check_runs dependency name func w dirs Hgate Hcopy).
    unfold attempt. rewrite Hbody. unfold timed_out.
    eexists. split; [reflexivity|]. repeat split. simpl. apply lookup_insert_eq.
Qed.

(** The theorem at a process that stays alive and silent. *)
Lemma timeout_example :
  exists c',
    @Child.stdout Ascii_python.python (Some (v_str "Hello")) None 3 Examples.silent
    = Raise (Error (Some (msg_str "timed out while waiting for program to exit"))
                   None FAIL (Some 3)) c'
    /\ Child.failed c' = false.
Proof.
  destruct (proj1 (@timeout_fails_check Ascii_python.python 3 Examples.silent eq_refl
                     ltac:(intros i _; unfold holds_out, reading; simpl;
                           repeat split; destruct i; simpl; discriminate)))
    as (c' & Hstdout & _ & Hf & _).
  exists c'. split; [apply Hstdout | exact Hf].
Defined.
